(** * simplerelic: the endpoint metrics and the reporter

    A shallow embedding of [metrics.go] (the revision with snapshots and
    [Clear]), of [reporter.go] and of the helpers of [simplerelic.go].

    - Go's [int] is the 64-bit two's complement integer: a [Z] wrapped by
      [int_wrap] after every addition.
    - Go's [float32] is IEEE 754 binary32: [spec_float] with a 24-bit
      mantissa and [emax = 128], through the operations of [SpecFloat].
    - A Go map is a reference: [map[string]int] objects live in a [heap] and
      the structs hold their addresses, so that a snapshot that stores
      [m.numReq] shares the object with the metric.
    - The locks are not modelled: every operation runs to completion. *)

From Stdlib Require Import ZArith Floats.SpecFloat.
From stdpp Require Import gmap strings list fin_maps.

Local Open Scope Z_scope.

(** ** Go's [int] *)

Definition int_wrap (z : Z) : Z := (z + 2 ^ 63) `mod` 2 ^ 64 - 2 ^ 63.

Definition int_add (a b : Z) : Z := int_wrap (a + b).

Definition max_int : Z := 2 ^ 63 - 1.

(** ** Go's [float32] *)

Abbreviation float32 := spec_float.

Definition f32_zero : float32 := S754_zero false.

(** [float32(n)] for an [int] (or a [time.Duration]) [n]. *)
Definition f32_of_int (n : Z) : float32 := binary_normalize 24 128 n 0 false.

Definition f32_add (x y : float32) : float32 := SFadd 24 128 x y.

Definition f32_div (x y : float32) : float32 := SFdiv 24 128 x y.

(** [x > 0] on [float32]. *)
Definition f32_gt0 (x : float32) : bool := SFltb f32_zero x.

(** ** The parameter bag [map[string]interface{}] *)

Inductive value :=
  | VString (s : string)
  | VInt (n : Z)
  | VTime (t : Z).   (* a [time.Time], as nanoseconds on the monotonic clock *)

(** What a call does: it returns (with the state it leaves and its [error],
    [None] for [nil]) or it panics. *)
Inductive result (S : Type) :=
  | Returns (s : S) (err : option string)
  | Panics.
Arguments Returns {S} s err.
Arguments Panics {S}.

Definition unknownEndpoint : string := "other".

(** [MetricBase]: written once by each constructor. [endpoints] is never
    assigned, so it stays the nil map and ranging over it does nothing. *)
Record MetricBase := {
  endpoints : list string;
  namePrefix : string;
  namePrefixOverall : string;
  metricUnit : string
}.

(** [MetricBase.endpointName]: the type assertion [.(string)] panics on a
    value of another type, which is [None] here. *)
Definition endpointName (params : gmap string value) : option string :=
  match params !! "endpointName" with
  | None => Some unknownEndpoint
  | Some (VString s) => Some s
  | Some _ => None
  end.

(** ** The store of [map[string]int] objects *)

Abbreviation heap := (list (gmap string Z)).

(** [make(map[string]int)] *)
Definition alloc (h : heap) : heap * nat := (h ++ [∅], length h).

(** The map object at an address. *)
Definition deref (h : heap) (r : nat) : gmap string Z := default ∅ (h !! r).

(** [m[k]]: the zero value when the key is absent. *)
Definition get (h : heap) (r : nat) (k : string) : Z := default 0 (deref h r !! k).

(** [m[k] = v] *)
Definition set (h : heap) (r : nat) (k : string) (v : Z) : heap :=
  <[r := <[k := v]> (deref h r)]> h.

(** [m[k]++] *)
Definition incr (h : heap) (r : nat) (k : string) : heap :=
  set h r k (int_add (get h r k) 1).

(** [metricName := m.namePrefix + endpoint + m.metricUnit] *)
Definition metricName (b : MetricBase) (endpoint : string) : string :=
  namePrefix b +:+ endpoint +:+ metricUnit b.

Definition overallName (b : MetricBase) : string :=
  namePrefixOverall b +:+ metricUnit b.

(** [out[k]] on the export mapping. *)
Definition fget (out : gmap string float32) (k : string) : float32 :=
  default f32_zero (out !! k).

(** ** Requests per endpoint *)

Module ReqPerEndpoint.

Record ReqPerEndpointSnapshot := { snap_numReq : nat }.

Record t := {
  store : heap;
  numReq : nat;
  snapshots : list ReqPerEndpointSnapshot
}.

Definition base : MetricBase :=
  {| endpoints := [];
     namePrefix := "Component/ReqPerEndpoint/";
     namePrefixOverall := "Component/Req/overall";
     metricUnit := "[requests]" |}.

Definition New : t :=
  let '(h, r) := alloc [] in
  let h := foldl (fun h endpoint => set h r endpoint 0) h (endpoints base) in
  let h := set h r unknownEndpoint 0 in
  {| store := h; numReq := r; snapshots := [] |}.

Definition Update (m : t) (params : gmap string value) : result t :=
  match endpointName params with
  | None => Panics
  | Some endpoint =>
      Returns {| store := incr (store m) (numReq m) endpoint;
                 numReq := numReq m;
                 snapshots := snapshots m |} None
  end.

Definition doSnapshot (m : t) : t :=
  let snaps := snapshots m ++ [ {| snap_numReq := numReq m |} ] in
  let '(h, r) := alloc (store m) in
  {| store := h; numReq := r; snapshots := snaps |}.

(** The body of the inner loop of [ValueMap]. *)
Definition addEntry (endpoint : string) (v : Z)
    (acc : gmap string float32 * Z) : gmap string float32 * Z :=
  let name := metricName base endpoint in
  (<[name := f32_add (fget acc.1 name) (f32_of_int v)]> acc.1,
   int_add acc.2 v).

Definition ValueMap (m : t) : t * gmap string float32 :=
  let m := doSnapshot m in
  let '(reqCount, numReqAllEndpoints) :=
    foldl (fun acc snapshot =>
             map_fold addEntry acc (deref (store m) (snap_numReq snapshot)))
          (∅, 0) (snapshots m) in
  let '(h, r) := alloc (store m) in
  ({| store := h; numReq := r; snapshots := snapshots m |},
   <[overallName base := f32_of_int numReqAllEndpoints]> reqCount).

Definition Clear (m : t) : t :=
  {| store := store m; numReq := numReq m; snapshots := [] |}.

End ReqPerEndpoint.

(** ** Error rate per endpoint *)

(** [m[k]] on a map local to a function. *)
Definition zget (m : gmap string Z) (k : string) : Z := default 0 (m !! k).

Module ErrorRatePerEndpoint.

Record ErrorRatePerEndpointSnapshot := {
  snap_numReq : nat;
  snap_errorCount : nat
}.

Record t := {
  store : heap;
  numReq : nat;
  errorCount : nat;
  snapshots : list ErrorRatePerEndpointSnapshot
}.

Definition base : MetricBase :=
  {| endpoints := [];
     namePrefix := "Component/ErrorRatePerEndpoint/";
     namePrefixOverall := "Component/ErrorRate/overall";
     metricUnit := "[percent]" |}.

(** [init] writes zeros into the two maps the metric holds: it allocates
    nothing. *)
Definition init (m : t) : t :=
  let h := foldl (fun h endpoint =>
                    set (set h (numReq m) endpoint 0) (errorCount m) endpoint 0)
                 (store m) (endpoints base) in
  let h := set h (numReq m) unknownEndpoint 0 in
  let h := set h (errorCount m) unknownEndpoint 0 in
  {| store := h; numReq := numReq m; errorCount := errorCount m;
     snapshots := snapshots m |}.

Definition New : t :=
  let '(h, rn) := alloc [] in
  let '(h, re) := alloc h in
  init {| store := h; numReq := rn; errorCount := re; snapshots := [] |}.

(** [params["statusCode"].(int)] panics when the key is absent (the nil
    interface) and when the value is not an [int]. *)
Definition Update (m : t) (params : gmap string value) : result t :=
  match endpointName params with
  | None => Panics
  | Some endpoint =>
      match params !! "statusCode" with
      | Some (VInt statusCode) =>
          let h := if 400 <=? statusCode
                   then incr (store m) (errorCount m) endpoint
                   else store m in
          let h := incr h (numReq m) endpoint in
          Returns {| store := h; numReq := numReq m;
                     errorCount := errorCount m;
                     snapshots := snapshots m |} None
      | _ => Panics
      end
  end.

Definition doSnapshot (m : t) : t :=
  let snap := {| snap_numReq := numReq m; snap_errorCount := errorCount m |} in
  init {| store := store m; numReq := numReq m; errorCount := errorCount m;
          snapshots := snapshots m ++ [snap] |}.

(** The body of the loop over the keys of [snapshot.errorCount]. *)
Definition addSnapshotEntry (h : heap) (snapshot : ErrorRatePerEndpointSnapshot)
    (endpoint : string) (_ : Z) (acc : gmap string Z * gmap string Z)
    : gmap string Z * gmap string Z :=
  (<[endpoint := int_add (zget acc.1 endpoint)
                         (get h (snap_errorCount snapshot) endpoint)]> acc.1,
   <[endpoint := int_add (zget acc.2 endpoint)
                         (get h (snap_numReq snapshot) endpoint)]> acc.2).

(** The first loop of [ValueMap]: the local maps [errorCount] and
    [requestCount]. *)
Definition sumSnapshots (h : heap) (snaps : list ErrorRatePerEndpointSnapshot)
    : gmap string Z * gmap string Z :=
  foldl (fun acc snapshot =>
           map_fold (addSnapshotEntry h snapshot) acc
                    (deref h (snap_errorCount snapshot)))
        (∅, ∅) snaps.

(** The body of the loop over the keys of the local [errorCount]. *)
Definition addRate (errorCount requestCount : gmap string Z)
    (endpoint : string) (_ : Z) (acc : gmap string float32 * Z * Z)
    : gmap string float32 * Z * Z :=
  let '(errorRate, errorCountOverall, requestCountOverall) := acc in
  let name := metricName base endpoint in
  let errorRate := <[name := f32_zero]> errorRate in
  let overallReq := f32_of_int (zget requestCount endpoint) in
  let errorRate :=
    if f32_gt0 overallReq
    then <[name := f32_div (f32_of_int (zget errorCount endpoint)) overallReq]> errorRate
    else errorRate in
  (errorRate,
   int_add errorCountOverall (zget errorCount endpoint),
   int_add requestCountOverall (zget requestCount endpoint)).

Definition ValueMap (m : t) : t * gmap string float32 :=
  let m := doSnapshot m in
  let '(errorCount, requestCount) := sumSnapshots (store m) (snapshots m) in
  let '(errorRate, errorCountOverall, requestCountOverall) :=
    map_fold (addRate errorCount requestCount) (∅, 0, 0) errorCount in
  let errorRate := <[overallName base := f32_zero]> errorRate in
  let errorRate :=
    if 0 <? requestCountOverall
    then <[overallName base :=
             f32_div (f32_of_int errorCountOverall)
                     (f32_of_int requestCountOverall)]> errorRate
    else errorRate in
  (m, errorRate).

Definition Clear (m : t) : t :=
  {| store := store m; numReq := numReq m; errorCount := errorCount m;
     snapshots := [] |}.

End ErrorRatePerEndpoint.

(** ** Response time per endpoint *)

Definition min_int : Z := - 2 ^ 63.

(** [time.Since(t)] read at instant [now]: a [time.Duration], an [int64]
    count of nanoseconds that saturates. *)
Definition time_Since (now t : Z) : Z := Z.max min_int (Z.min max_int (now - t)).

(** [time.Millisecond] *)
Definition Millisecond : Z := 1000000.

Module ResponseTimePerEndpoint.

(** This metric has no snapshots. Its two maps are never shared, so they
    are held by value. *)
Record t := {
  numReq : gmap string Z;
  responseTimeMap : gmap string (list float32)
}.

Definition base : MetricBase :=
  {| endpoints := [];
     namePrefix := "Component/ResponseTimePerEndpoint/";
     namePrefixOverall := "Component/ResponseTime/overall";
     metricUnit := "[ms]" |}.

(** [make([]float32, 1)] *)
Definition fresh_slice : list float32 := [f32_zero].

Definition New : t :=
  let rt := foldl (fun rt endpoint => <[endpoint := fresh_slice]> rt)
                  ∅ (endpoints base) in
  {| numReq := ∅; responseTimeMap := <[unknownEndpoint := fresh_slice]> rt |}.

Definition errMissingStart : string := "reqStart time should be time.Time".

(** [now] is the clock when [time.Since] reads it. *)
Definition Update (now : Z) (m : t) (params : gmap string value) : result t :=
  match params !! "reqStartTime" with
  | None => Returns m (Some errMissingStart)
  | Some (VTime startTime) =>
      let elapsedTimeInMs :=
        f32_div (f32_of_int (time_Since now startTime)) (f32_of_int Millisecond) in
      match endpointName params with
      | None => Panics
      | Some endpoint =>
          Returns
            {| numReq := <[endpoint := int_add (zget (numReq m) endpoint) 1]> (numReq m);
               responseTimeMap :=
                 <[endpoint := default [] (responseTimeMap m !! endpoint)
                                 ++ [elapsedTimeInMs]]> (responseTimeMap m) |}
            None
      end
  | Some _ => Panics
  end.

(** The state of the loop of [ValueMap]. *)
Record loop := {
  lm : t;
  metrics : gmap string float32;
  responseTimeAllEndpoints : float32;
  numReqAllEndpoints : Z
}.

Definition addEndpoint (endpoint : string) (values : list float32) (l : loop) : loop :=
  let responseTimeSum := foldl f32_add f32_zero values in
  let name := metricName base endpoint in
  let metrics := <[name := f32_zero]> (metrics l) in
  let numReq := f32_of_int (zget (numReq (lm l)) endpoint) in
  let metrics :=
    if f32_gt0 numReq then <[name := f32_div responseTimeSum numReq]> metrics
    else metrics in
  {| lm := {| numReq := <[endpoint := 0]> (ResponseTimePerEndpoint.numReq (lm l));
              responseTimeMap := <[endpoint := fresh_slice]> (responseTimeMap (lm l)) |};
     metrics := metrics;
     responseTimeAllEndpoints := f32_add (responseTimeAllEndpoints l) responseTimeSum;
     numReqAllEndpoints :=
       int_add (numReqAllEndpoints l) (zget (ResponseTimePerEndpoint.numReq (lm l)) endpoint) |}.

(** Go leaves the order of [range] over a map open; the fold visits the
    keys in the order of [map_to_list]. *)
Definition ValueMap (m : t) : t * gmap string float32 :=
  let l := map_fold addEndpoint
             {| lm := m; metrics := ∅;
                responseTimeAllEndpoints := f32_zero; numReqAllEndpoints := 0 |}
             (responseTimeMap m) in
  let out := <[overallName base := f32_zero]> (metrics l) in
  let out :=
    if 0 <? numReqAllEndpoints l
    then <[overallName base :=
             f32_div (responseTimeAllEndpoints l)
                     (f32_of_int (numReqAllEndpoints l))]> out
    else out in
  (lm l, out).

(** The body of [Clear] is a comment. *)
Definition Clear (m : t) : t := m.

End ResponseTimePerEndpoint.

(** ** The reporter *)

(** What [httpClient.Do] gives back. *)
Inductive http_result :=
  | TransportError
  | Response (StatusCode : Z).

Definition StatusOK : Z := 200.

Module Reporter.

(** The implementations of the interface [AppMetric] in the package. *)
Inductive AppMetric :=
  | Req (m : ReqPerEndpoint.t)
  | Err (m : ErrorRatePerEndpoint.t)
  | Resp (m : ResponseTimePerEndpoint.t).

Definition lift {A} (f : A -> AppMetric) (r : result A) : result AppMetric :=
  match r with
  | Returns a e => Returns (f a) e
  | Panics => Panics
  end.

Definition Update (now : Z) (a : AppMetric) (params : gmap string value)
    : result AppMetric :=
  match a with
  | Req m => lift Req (ReqPerEndpoint.Update m params)
  | Err m => lift Err (ErrorRatePerEndpoint.Update m params)
  | Resp m => lift Resp (ResponseTimePerEndpoint.Update now m params)
  end.

Definition ValueMap (a : AppMetric) : AppMetric * gmap string float32 :=
  match a with
  | Req m => let '(m, out) := ReqPerEndpoint.ValueMap m in (Req m, out)
  | Err m => let '(m, out) := ErrorRatePerEndpoint.ValueMap m in (Err m, out)
  | Resp m => let '(m, out) := ResponseTimePerEndpoint.ValueMap m in (Resp m, out)
  end.

Definition Clear (a : AppMetric) : AppMetric :=
  match a with
  | Req m => Req (ReqPerEndpoint.Clear m)
  | Err m => Err (ErrorRatePerEndpoint.Clear m)
  | Resp m => Resp (ResponseTimePerEndpoint.Clear m)
  end.

Record t := {
  Metrics : list AppMetric;
  appName : string;
  licence : string;
  verbose : bool
}.

Definition AddMetric (reporter : t) (metric : AppMetric) : t :=
  {| Metrics := Metrics reporter ++ [metric];
     appName := appName reporter; licence := licence reporter;
     verbose := verbose reporter |}.

(** [InitDefaultReporter], after [NewReporter] has accepted the licence. *)
Definition InitDefaultReporter (appname licence : string) (verbose : bool) : t :=
  let Engine := {| Metrics := []; appName := appname; licence := licence;
                   verbose := verbose |} in
  let Engine := AddMetric Engine (Req ReqPerEndpoint.New) in
  let Engine := AddMetric Engine (Err ErrorRatePerEndpoint.New) in
  AddMetric Engine (Resp ResponseTimePerEndpoint.New).

(** What [doRequest] does is write to the log: it returns nothing and
    touches no metric. *)
Definition doRequest (reporter : t) (resp : http_result) : list string :=
  match resp with
  | TransportError => ["Post request to NewRelic failed"]
  | Response code =>
      (if verbose reporter then ["response from NewRelic"] else [])
      ++ (if bool_decide (code = StatusOK) then []
          else ["Error in request to NewRelic, status code"])
  end.

(** The loop of [sendMetrics] over [reporter.Metrics]: every metric is
    exported and its entries are copied into the payload. *)
Definition exportAll (ms : list AppMetric)
    : list AppMetric * gmap string float32 :=
  foldl (fun acc metric =>
           let '(metric, values) := ValueMap metric in
           (acc.1 ++ [metric],
            map_fold (fun name value data => <[name := value]> data) acc.2 values))
        ([], ∅) ms.

(** One cycle of the reporter. [resp] is the answer of NewRelic to this
    cycle's request. The result is the reporter after the cycle, the
    payload and the log. The error of [json.Marshal] is dropped by the
    source and the request is made in any case. *)
Definition sendMetrics (reporter : t) (resp : http_result)
    : t * gmap string float32 * list string :=
  let '(ms, data) := exportAll (Metrics reporter) in
  let log := if verbose reporter then ["sending metrics to NewRelic"] else [] in
  ({| Metrics := ms; appName := appName reporter; licence := licence reporter;
      verbose := verbose reporter |},
   data,
   log ++ doRequest reporter resp).

End Reporter.

(** ** [simplerelic.go] *)

Definition DefaultReqParams (now : Z) (endpointName : string) : gmap string value :=
  <["reqStartTime" := VTime now]> (<["endpointName" := VString endpointName]> ∅).

Definition CollectParamsOnReqEnd (params : gmap string value) (statusCode : Z)
    : gmap string value :=
  <["statusCode" := VInt statusCode]> params.

(** [UpdateMetricsOnReqEnd]: the errors are dropped, a panic is not caught. *)
Fixpoint UpdateMetricsOnReqEnd (now : Z) (ms : list Reporter.AppMetric)
    (params : gmap string value) : option (list Reporter.AppMetric) :=
  match ms with
  | [] => Some []
  | v :: ms =>
      match Reporter.Update now v params with
      | Panics => None
      | Returns v _ => cons v <$> UpdateMetricsOnReqEnd now ms params
      end
  end.

(** * Vocabulary of the statements *)

(** The sum of the counts of a map, in [Z]. *)
Definition zsum (m : gmap string Z) : Z := map_fold (fun _ v acc => acc + v) 0 m.

(** A run of [Update] calls, and the two ways to export it. A panic ends
    the run ([None]). *)
Section Runs.
Context {S : Type}.
Variable Update : S -> gmap string value -> result S.
Variable ValueMap : S -> S * gmap string float32.

Fixpoint updates (m : S) (ps : list (gmap string value)) : option S :=
  match ps with
  | [] => Some m
  | p :: ps =>
      match Update m p with
      | Returns m _ => updates m ps
      | Panics => None
      end
  end.

(** [Update] all, then [ValueMap] once. *)
Definition exportOnce (m : S) (ps : list (gmap string value))
    : option (S * gmap string float32) :=
  ValueMap <$> updates m ps.

(** [ValueMap] after every [Update]; [out] is the last export so far. *)
Fixpoint exportEach (m : S) (out : gmap string float32)
    (ps : list (gmap string value)) : option (S * gmap string float32) :=
  match ps with
  | [] => Some (m, out)
  | p :: ps =>
      match Update m p with
      | Returns m _ => exportEach (ValueMap m).1 (ValueMap m).2 ps
      | Panics => None
      end
  end.
End Runs.

(** The entry [name] of the export a run ends with. *)
Definition entryOf {S : Type} (r : option (S * gmap string float32)) (name : string)
    : option float32 :=
  r ≫= (fun x => x.2 !! name).

Module ReqSpec.
Import ReqPerEndpoint.

(** The live map is allocated, and so is the map of every snapshot, which
    is another object than the live map. *)
Definition wf (m : t) : Prop :=
  (numReq m < length (store m))%nat ∧
  Forall (fun s => (snap_numReq s < length (store m))%nat ∧ snap_numReq s ≠ numReq m)
         (snapshots m).

(** The requests held by the snapshots of the ledger. *)
Definition retained (m : t) : Z :=
  foldr (fun s acc => zsum (deref (store m) (snap_numReq s)) + acc) 0 (snapshots m).

(** All the requests the metric holds: the ledger and the live map. *)
Definition observed (m : t) : Z := retained m + zsum (deref (store m) (numReq m)).

(** The metrics a program can hold: built by the constructor and changed
    by the three operations. *)
Inductive reachable : t -> Prop :=
  | reach_New : reachable New
  | reach_Update m params m' e :
      reachable m -> Update m params = Returns m' e -> reachable m'
  | reach_ValueMap m : reachable m -> reachable (ValueMap m).1
  | reach_Clear m : reachable m -> reachable (Clear m).
End ReqSpec.

Module ErrSpec.
Import ErrorRatePerEndpoint.

(** The two live maps are allocated and are two objects. *)
Definition wf (m : t) : Prop :=
  (numReq m < length (store m))%nat ∧ (errorCount m < length (store m))%nat ∧
  numReq m ≠ errorCount m.

Inductive reachable : t -> Prop :=
  | reach_New : reachable New
  | reach_Update m params m' e :
      reachable m -> Update m params = Returns m' e -> reachable m'
  | reach_ValueMap m : reachable m -> reachable (ValueMap m).1
  | reach_Clear m : reachable m -> reachable (Clear m).
End ErrSpec.

Module RespSpec.
Import ResponseTimePerEndpoint.

(** The loop of [ValueMap] before its first round. *)
Definition start (m : t) : loop :=
  {| lm := m; metrics := ∅;
     responseTimeAllEndpoints := f32_zero; numReqAllEndpoints := 0 |}.

(** The constructor gives the endpoint [other] a slice, and nothing takes
    a key out of [responseTimeMap]. *)
Definition wf (m : t) : Prop := is_Some (responseTimeMap m !! unknownEndpoint).

Inductive reachable : t -> Prop :=
  | reach_New : reachable New
  | reach_Update now m params m' e :
      reachable m -> Update now m params = Returns m' e -> reachable m'
  | reach_ValueMap m : reachable m -> reachable (ValueMap m).1
  | reach_Clear m : reachable m -> reachable (Clear m).
End RespSpec.

(** ** Parameter bags of the examples *)

Definition params_endpoint (endpoint : string) : gmap string value :=
  {[ "endpointName" := VString endpoint ]}.

Definition params_status (endpoint : string) (statusCode : Z) : gmap string value :=
  <["statusCode" := VInt statusCode]> (params_endpoint endpoint).

(** A request with a status code and no endpoint. *)
Definition params_status_only (statusCode : Z) : gmap string value :=
  {[ "statusCode" := VInt statusCode ]}.

Definition params_start (endpoint : string) (startTime : Z) : gmap string value :=
  <["reqStartTime" := VTime startTime]> (params_endpoint endpoint).

(** Some [float32] values. *)
Definition f32_quarter : float32 := S754_finite false 8388608 (-25).
Definition f32_half : float32 := S754_finite false 8388608 (-24).
Definition f32_one : float32 := S754_finite false 8388608 (-23).
Definition f32_two : float32 := S754_finite false 8388608 (-22).
Definition f32_three : float32 := S754_finite false 12582912 (-22).
Definition f32_four : float32 := S754_finite false 8388608 (-21).

(** ** Scenarios on the error-rate metric *)

Module ErrScenario.
Import ErrorRatePerEndpoint.

(** Status codes 404 and 200, an export, status codes 200 and 200, the
    second export, of which the entry [name] is read; [p] makes the
    parameter bag of a status code. *)
Definition twoExports (p : Z -> gmap string value) (name : string) : option float32 :=
  m ← updates Update New [p 404; p 200];
  m ← updates Update (ValueMap m).1 [p 200; p 200];
  (ValueMap m).2 !! name.

(** One request, an export, [Clear], the next export: the entry [name]
    of the two exports. *)
Definition exportClearExport (p : gmap string value) (name : string)
    : option (option float32 * option float32) :=
  m ← updates Update New [p];
  Some ((ValueMap m).2 !! name, (ValueMap (Clear (ValueMap m).1)).2 !! name).

(** What the first snapshot holds for an endpoint, as a pair of the
    request count and the error count. *)
Definition firstSnapshot (m : t) (endpoint : string) : option (Z * Z) :=
  s ← head (snapshots m);
  Some (get (store m) (snap_numReq s) endpoint,
        get (store m) (snap_errorCount s) endpoint).

(** A request [p], an export, a request [q]: the first snapshot at the
    endpoint before and after the second request. *)
Definition snapshotAcrossUpdate (p q : gmap string value) (endpoint : string)
    : option (option (Z * Z) * option (Z * Z)) :=
  m ← updates Update New [p];
  m' ← updates Update (ValueMap m).1 [q];
  Some (firstSnapshot (ValueMap m).1 endpoint, firstSnapshot m' endpoint).

(** One failed request to ["log"] and three good requests to ["api"],
    then an export: the requests counted for ["api"], the aggregate entry
    and the entry of ["api"]. *)
Definition oneErrorOfFour : option (Z * option float32 * option float32) :=
  m ← updates Update New [params_status "log" 404; params_status "api" 200;
                          params_status "api" 200; params_status "api" 200];
  Some (get (store m) (numReq m) "api",
        (ValueMap m).2 !! overallName base,
        (ValueMap m).2 !! metricName base "api").
End ErrScenario.

(** ** What a cycle of the reporter keeps *)

Module ReporterSpec.
Import Reporter.




End ReporterSpec.

(** ** The request count after [Clear] *)

Module ReqScenario.
Import ReqPerEndpoint.

(** A new metric is exported, cleared and exported again: the second
    export, as a list. *)
Definition exportClearExport : list (string * float32) :=
  map_to_list (ValueMap (Clear (ValueMap New).1)).2.
End ReqScenario.

(** ** The names a metric exports under *)

(** [exportName b n]: [n] is the name of the aggregate entry or of the
    entry of some endpoint of a metric with the base [b]. *)
Definition exportName (b : MetricBase) (n : string) : Prop :=
  n = overallName b ∨ ∃ endpoint, n = metricName b endpoint.

(** ** The entry of one endpoint *)

Module ReqEntry.
Import ReqPerEndpoint.

(** The entry of [endpoint] after the loop of [ValueMap] has gone through
    the snapshots [snaps], [acc] being the entry before: a snapshot that
    has the endpoint adds its count, as a [float32]. *)
Definition entryOver (h : heap) (endpoint : string)
    (snaps : list ReqPerEndpointSnapshot) (acc : option float32) : option float32 :=
  foldl (fun acc s =>
           match deref h (snap_numReq s) !! endpoint with
           | Some v => Some (f32_add (default f32_zero acc) (f32_of_int v))
           | None => acc
           end) acc snaps.
End ReqEntry.

Module ErrEntry.
Import ErrorRatePerEndpoint.

(** The local [errorCount] and [requestCount] of [ValueMap] at [endpoint]
    after the loop over the snapshots [snaps]: [None] while no snapshot so
    far has the endpoint as a key of its [errorCount]. *)
Definition countsOver (h : heap) (endpoint : string)
    (snaps : list ErrorRatePerEndpointSnapshot) (acc : option (Z * Z))
    : option (Z * Z) :=
  foldl (fun acc s =>
           match deref h (snap_errorCount s) !! endpoint with
           | Some _ =>
               Some (int_add (default (0, 0) acc).1 (get h (snap_errorCount s) endpoint),
                     int_add (default (0, 0) acc).2 (get h (snap_numReq s) endpoint))
           | None => acc
           end) acc snaps.

(** The error rate of an endpoint with [errors] errors in [requests]
    requests. *)
Definition rate (errors requests : Z) : float32 :=
  if f32_gt0 (f32_of_int requests)
  then f32_div (f32_of_int errors) (f32_of_int requests)
  else f32_zero.
End ErrEntry.

Module RespEntry.
Import ResponseTimePerEndpoint.

(** The mean response time of an endpoint with the slice [values] and
    [requests] requests. *)
Definition mean (values : list float32) (requests : Z) : float32 :=
  if f32_gt0 (f32_of_int requests)
  then f32_div (foldl f32_add f32_zero values) (f32_of_int requests)
  else f32_zero.
End RespEntry.

(** ** The earlier revision of [metrics.go]: no snapshots, no [Clear] *)

(** In this revision [ValueMap] reads the counts and resets them. The
    maps are never shared (an export lets go of the map it replaces), so the
    metrics hold them by value. The field [allEPNamePrefix] of
    [StandardMetric] is [namePrefixOverall] here. *)
Module V1.

Module ReqPerEndpoint.

Record t := { reqCount : gmap string Z }.

Definition base : MetricBase :=
  {| endpoints := [];
     namePrefix := "Component/ReqPerEndpoint/";
     namePrefixOverall := "Component/Req/overall";
     metricUnit := "[requests]" |}.

(** [StandardMetric.initReqCount] *)
Definition initReqCount (reqCount : gmap string Z) : gmap string Z :=
  <[unknownEndpoint := 0]>
    (foldl (fun rc endpoint => <[endpoint := 0]> rc) reqCount (endpoints base)).

Definition New : t := {| reqCount := initReqCount ∅ |}.

Definition Update (m : t) (params : gmap string value) : result t :=
  match endpointName params with
  | None => Panics
  | Some endpoint =>
      Returns {| reqCount := <[endpoint := int_add (zget (reqCount m) endpoint) 1]>
                               (reqCount m) |} None
  end.

(** The body of the loop of [ValueMap]. *)
Definition addEntry (endpoint : string) (v : Z)
    (acc : gmap string float32 * Z) : gmap string float32 * Z :=
  (<[metricName base endpoint := f32_of_int v]> acc.1, int_add acc.2 v).

Definition ValueMap (m : t) : t * gmap string float32 :=
  let '(metricMap, numReqAllEndpoints) := map_fold addEntry (∅, 0) (reqCount m) in
  ({| reqCount := ∅ |},
   <[overallName base := f32_of_int numReqAllEndpoints]> metricMap).

End ReqPerEndpoint.

Module ErrorRatePerEndpoint.

Record t := {
  reqCount : gmap string Z;
  errorCount : gmap string Z
}.

Definition base : MetricBase :=
  {| endpoints := [];
     namePrefix := "Component/ErrorRatePerEndpoint/";
     namePrefixOverall := "Component/ErrorRate/overall";
     metricUnit := "[percent]" |}.

Definition New : t :=
  {| reqCount :=
       <[unknownEndpoint := 0]>
         (foldl (fun rc endpoint => <[endpoint := 0]> rc) ∅ (endpoints base));
     errorCount :=
       <[unknownEndpoint := 0]>
         (foldl (fun ec endpoint => <[endpoint := 0]> ec) ∅ (endpoints base)) |}.

Definition Update (m : t) (params : gmap string value) : result t :=
  match endpointName params with
  | None => Panics
  | Some endpoint =>
      match params !! "statusCode" with
      | Some (VInt statusCode) =>
          let ec := if 400 <=? statusCode
                    then <[endpoint := int_add (zget (errorCount m) endpoint) 1]>
                           (errorCount m)
                    else errorCount m in
          Returns {| reqCount := <[endpoint := int_add (zget (reqCount m) endpoint) 1]>
                                   (reqCount m);
                     errorCount := ec |} None
      | _ => Panics
      end
  end.

(** The state of the loop of [ValueMap]. *)
Record loop := {
  lm : t;
  metrics : gmap string float32;
  allEPErrors : Z;
  reqAllEndpoints : Z
}.

(** The body of the loop over the keys of [m.errorCount]. *)
Definition addEndpoint (endpoint : string) (_ : Z) (l : loop) : loop :=
  let name := metricName base endpoint in
  let metrics := <[name := f32_zero]> (metrics l) in
  let overallReq := f32_of_int (zget (reqCount (lm l)) endpoint) in
  let metrics :=
    if f32_gt0 overallReq
    then <[name := f32_div (f32_of_int (zget (errorCount (lm l)) endpoint)) overallReq]>
           metrics
    else metrics in
  {| lm := {| reqCount := <[endpoint := 0]> (reqCount (lm l));
              errorCount := <[endpoint := 0]> (errorCount (lm l)) |};
     metrics := metrics;
     allEPErrors := int_add (allEPErrors l) (zget (errorCount (lm l)) endpoint);
     reqAllEndpoints := int_add (reqAllEndpoints l) (zget (reqCount (lm l)) endpoint) |}.

Definition start (m : t) : loop :=
  {| lm := m; metrics := ∅; allEPErrors := 0; reqAllEndpoints := 0 |}.

Definition ValueMap (m : t) : t * gmap string float32 :=
  let l := map_fold addEndpoint (start m) (errorCount m) in
  let out := <[overallName base := f32_zero]> (metrics l) in
  let out :=
    if 0 <? reqAllEndpoints l
    then <[overallName base :=
             f32_div (f32_of_int (allEPErrors l)) (f32_of_int (reqAllEndpoints l))]> out
    else out in
  (lm l, out).

End ErrorRatePerEndpoint.

End V1.

(** * Properties *)

(** ** Arithmetic of [int] *)

Lemma int_wrap_range z : min_int <= int_wrap z <= max_int.
Proof.
  unfold int_wrap, min_int, max_int.
  pose proof (Z.mod_pos_bound (z + 2 ^ 63) (2 ^ 64)). lia.
Qed.

Lemma int_wrap_small z : min_int <= z <= max_int -> int_wrap z = z.
Proof.
  unfold int_wrap, min_int, max_int. intros Hz.
  rewrite Z.mod_small by lia. lia.
Qed.

Lemma int_wrap_add_l a b : int_wrap (int_wrap a + b) = int_wrap (a + b).
Proof.
  unfold int_wrap.
  replace ((a + 2 ^ 63) `mod` 2 ^ 64 - 2 ^ 63 + b + 2 ^ 63)
    with ((a + 2 ^ 63) `mod` 2 ^ 64 + b) by lia.
  rewrite Zplus_mod_idemp_l. do 2 f_equal. lia.
Qed.

Lemma int_wrap_idem a : int_wrap (int_wrap a) = int_wrap a.
Proof. apply int_wrap_small, int_wrap_range. Qed.

Lemma int_wrap_add_r a b : int_wrap (a + int_wrap b) = int_wrap (a + b).
Proof. rewrite Z.add_comm, int_wrap_add_l. f_equal. lia. Qed.

Lemma int_add_comm3 a b c : int_add (int_add a b) c = int_add (int_add a c) b.
Proof. unfold int_add. rewrite !int_wrap_add_l. f_equal. lia. Qed.

(** Below the largest [int], [x++] adds one. *)
Lemma int_add_succ x : min_int <= x < max_int -> int_add x 1 = x + 1.
Proof. intros Hx. apply int_wrap_small. lia. Qed.

(** ** The store *)

Lemma deref_app_empty (h : heap) r : deref (h ++ [∅]) r = deref h r.
Proof.
  unfold deref.
  destruct (decide (r < length h)%nat) as [Hlt | Hge].
  - by rewrite lookup_app_l.
  - rewrite lookup_app_r by lia.
    rewrite (lookup_ge_None_2 h r) by lia.
    by destruct (r - length h)%nat.
Qed.

Lemma deref_alloc h r : deref (alloc h).1 r = deref h r.
Proof. apply deref_app_empty. Qed.

Lemma deref_fresh (h : heap) r : (length h <= r)%nat -> deref h r = ∅.
Proof. intros Hr. unfold deref. by rewrite lookup_ge_None_2. Qed.

Lemma get_alloc h r k : get (alloc h).1 r k = get h r k.
Proof. unfold get. by rewrite deref_alloc. Qed.

Lemma length_set h r k v : length (set h r k v) = length h.
Proof. apply length_insert. Qed.

Lemma deref_set_eq h r k v :
  (r < length h)%nat -> deref (set h r k v) r = <[k := v]> (deref h r).
Proof. intros Hr. unfold deref at 1, set. by rewrite list_lookup_insert_eq. Qed.

Lemma deref_set_ne h r r' k v : r ≠ r' -> deref (set h r k v) r' = deref h r'.
Proof. intros Hr. unfold deref at 1, set. by rewrite list_lookup_insert_ne. Qed.

Lemma get_set_eq h r k v : (r < length h)%nat -> get (set h r k v) r k = v.
Proof. intros Hr. unfold get. by rewrite deref_set_eq, lookup_insert_eq. Qed.

Lemma get_set_ne h r r' k k' v :
  r ≠ r' ∨ k ≠ k' -> get (set h r k v) r' k' = get h r' k'.
Proof.
  intros Hne. unfold get. destruct (decide (r = r')) as [<- | Hr].
  - destruct Hne as [? | Hk]; [done |].
    destruct (decide (r < length h)%nat).
    + by rewrite deref_set_eq, lookup_insert_ne.
    + unfold set. by rewrite list_insert_ge by lia.
  - by rewrite deref_set_ne.
Qed.

Lemma length_incr h r k : length (incr h r k) = length h.
Proof. apply length_set. Qed.

Lemma get_incr_eq h r k :
  (r < length h)%nat -> get (incr h r k) r k = int_add (get h r k) 1.
Proof. apply get_set_eq. Qed.

Lemma get_incr_ne h r r' k k' :
  r ≠ r' ∨ k ≠ k' -> get (incr h r k) r' k' = get h r' k'.
Proof. apply get_set_ne. Qed.

(** A key the metric has not seen reads as zero, and [++] creates it with
    the value one. *)
Lemma incr_creates h r k :
  (r < length h)%nat -> deref h r !! k = None -> deref (incr h r k) r !! k = Some 1.
Proof.
  intros Hr Hk. unfold incr. rewrite deref_set_eq, lookup_insert_eq by done.
  unfold get. by rewrite Hk.
Qed.

(** ** The endpoint of a request *)

Lemma endpointName_absent (params : gmap string value) :
  params !! "endpointName" = None -> endpointName params = Some unknownEndpoint.
Proof. unfold endpointName. by intros ->. Qed.

Lemma endpointName_string (params : gmap string value) s :
  params !! "endpointName" = Some (VString s) -> endpointName params = Some s.
Proof. unfold endpointName. by intros ->. Qed.

(** ** Requests per endpoint: the addresses stay allocated *)

Module ReqWf.
Import ReqPerEndpoint ReqSpec.

Lemma req_wf_New : wf New.
Proof. split; [vm_compute; lia | constructor]. Qed.

Lemma req_wf_Update m params m' e :
  wf m -> Update m params = Returns m' e -> wf m'.
Proof.
  intros [Hl Hs]. unfold Update. destruct (endpointName params); [|done].
  intros [= <- <-]. split; simpl; by rewrite length_incr.
Qed.

Lemma req_wf_doSnapshot m : wf m -> wf (doSnapshot m).
Proof.
  intros [Hl Hs]. unfold doSnapshot, alloc. split; simpl.
  - rewrite length_app. simpl. lia.
  - rewrite Forall_app. split.
    + eapply Forall_impl; [exact Hs |]. simpl. intros s [H1 H2].
      rewrite length_app. simpl. lia.
    + constructor; [|constructor]. simpl. rewrite length_app. simpl. lia.
Qed.

Lemma req_ValueMap_state m :
  (ValueMap m).1 =
    {| store := (alloc (store (doSnapshot m))).1;
       numReq := (alloc (store (doSnapshot m))).2;
       snapshots := snapshots (doSnapshot m) |}.
Proof.
  unfold ValueMap.
  destruct (foldl _ _ (snapshots (doSnapshot m))) as [rc n].
  by destruct (alloc (store (doSnapshot m))).
Qed.

Lemma req_wf_ValueMap m : wf m -> wf (ValueMap m).1.
Proof.
  intros Hwf. apply req_wf_doSnapshot in Hwf as [Hl Hs].
  rewrite req_ValueMap_state. unfold alloc.
  split; cbn [store numReq snapshots fst snd].
  - rewrite length_app. cbn [length]. lia.
  - eapply Forall_impl; [exact Hs |]. cbn beta. intros s [H1 H2].
    rewrite length_app. cbn [length]. lia.
Qed.

Lemma req_wf_Clear m : wf m -> wf (Clear m).
Proof. intros [Hl _]. split; [done | constructor]. Qed.

(** Every metric a program can hold is well formed. *)
Lemma req_reachable_wf m : reachable m -> wf m.
Proof.
  induction 1; eauto using req_wf_New, req_wf_Update, req_wf_ValueMap, req_wf_Clear.
Qed.

End ReqWf.

(** ** Sums of counts *)

Lemma zsum_empty : zsum ∅ = 0.
Proof. apply map_fold_empty. Qed.

Lemma zsum_insert_None (d : gmap string Z) k v :
  d !! k = None -> zsum (<[k := v]> d) = zsum d + v.
Proof.
  intros Hk. unfold zsum. rewrite map_fold_insert_L; [done | | done].
  intros. lia.
Qed.

Lemma zsum_insert (d : gmap string Z) k v :
  zsum (<[k := v]> d) = zsum d - default 0 (d !! k) + v.
Proof.
  destruct (d !! k) as [old |] eqn:Hk; simpl.
  - rewrite <- (insert_delete_eq d k v).
    rewrite zsum_insert_None by apply lookup_delete_eq.
    rewrite <- (insert_delete_id d k old) at 2 by done.
    rewrite zsum_insert_None by apply lookup_delete_eq. lia.
  - rewrite zsum_insert_None by done. lia.
Qed.

(** ** Requests per endpoint: what an export reports *)

Module ReqExport.
Import ReqPerEndpoint ReqSpec ReqWf.

(** The counter of the loop of [ValueMap] over one snapshot. *)
Lemma addEntry_total l rc n :
  (foldr (uncurry addEntry) (rc, n) l).2
  = foldr (fun kv acc => int_add acc kv.2) n l.
Proof. induction l as [| [k v] l IH]; simpl; [done | by rewrite IH]. Qed.

Lemma int_fold_total l n :
  int_wrap (foldr (fun (kv : string * Z) acc => int_add acc kv.2) n l)
  = int_wrap (n + foldr (fun kv acc => acc + kv.2) 0 l).
Proof.
  induction l as [| [k v] l IH]; simpl.
  - f_equal. lia.
  - unfold int_add at 1. rewrite int_wrap_idem, <- int_wrap_add_l, IH.
    rewrite int_wrap_add_l. f_equal. lia.
Qed.

Lemma int_fold_wrapped l n :
  int_wrap n = n ->
  int_wrap (foldr (fun (kv : string * Z) acc => int_add acc kv.2) n l)
  = foldr (fun kv acc => int_add acc kv.2) n l.
Proof. destruct l; simpl; [done | intros _; apply int_wrap_idem]. Qed.

Lemma map_fold_addEntry_total rc n (d : gmap string Z) :
  int_wrap n = n ->
  (map_fold addEntry (rc, n) d).2 = int_wrap (n + zsum d).
Proof.
  intros Hn. unfold zsum. rewrite !map_fold_foldr, addEntry_total.
  rewrite <- int_fold_wrapped by done. rewrite int_fold_total.
  do 2 f_equal. induction (map_to_list d) as [| [k v] l IH]; simpl; [done | by rewrite IH].
Qed.

(** The counter after the loop over the snapshots. *)
Lemma snapshots_total h snaps acc :
  int_wrap acc.2 = acc.2 ->
  (foldl (fun acc snapshot => map_fold addEntry acc (deref h (snap_numReq snapshot)))
         acc snaps).2
  = int_wrap (acc.2 + foldr (fun s a => zsum (deref h (snap_numReq s)) + a) 0 snaps).
Proof.
  revert acc. induction snaps as [| s snaps IH]; intros [rc n] Hn; simpl in *.
  - rewrite Z.add_0_r. by rewrite Hn.
  - rewrite IH.
    + rewrite map_fold_addEntry_total by done. rewrite int_wrap_add_l. f_equal. lia.
    + rewrite map_fold_addEntry_total by done. apply int_wrap_idem.
Qed.

Lemma retained_ext m m' :
  snapshots m' = snapshots m ->
  Forall (fun s => deref (store m') (snap_numReq s) = deref (store m) (snap_numReq s))
         (snapshots m) ->
  retained m' = retained m.
Proof.
  unfold retained. intros ->. induction 1 as [| s l Hs _ IH]; simpl; [done |].
  by rewrite Hs, IH.
Qed.

Lemma retained_alloc (h : heap) l z :
  foldr (fun s a => zsum (deref (h ++ [∅]) (snap_numReq s)) + a) z l
  = foldr (fun s a => zsum (deref h (snap_numReq s)) + a) 0 l + z.
Proof.
  induction l as [| s l IH]; simpl; [done |].
  rewrite deref_app_empty, IH. lia.
Qed.

(** The aggregate entry of an export counts every request of the ledger
    and of the live map. *)
Lemma ValueMap_overall m :
  (ValueMap m).2 !! overallName base = Some (f32_of_int (int_wrap (observed m))).
Proof.
  unfold ValueMap.
  pose proof (snapshots_total (store (doSnapshot m)) (snapshots (doSnapshot m)) (∅, 0)) as Ht.
  destruct (foldl _ _ (snapshots (doSnapshot m))) as [rc n].
  destruct (alloc (store (doSnapshot m))) as [h r].
  cbn [snd]. rewrite lookup_insert_eq. do 2 f_equal.
  cbn [snd] in Ht. rewrite Ht by done. clear Ht. f_equal.
  unfold observed, retained, doSnapshot, alloc. cbn [store snapshots].
  rewrite foldr_app. cbn [foldr snap_numReq].
  rewrite retained_alloc, deref_app_empty. lia.
Qed.

(** An export moves the live map into the ledger: nothing is lost. *)
Lemma observed_ValueMap m : observed (ValueMap m).1 = observed m.
Proof.
  rewrite req_ValueMap_state. unfold observed, retained, doSnapshot, alloc.
  cbn [store snapshots numReq snd fst].
  rewrite foldr_app. cbn [foldr snap_numReq].
  rewrite !retained_alloc, !deref_app_empty.
  rewrite (deref_fresh (store m) (length (store m ++ [∅])))
    by (rewrite length_app; simpl; lia).
  rewrite zsum_empty. lia.
Qed.

(** An update adds one request, in the arithmetic of [int]. *)
Lemma observed_Update m params m' e :
  wf m -> Update m params = Returns m' e ->
  int_wrap (observed m') = int_wrap (observed m + 1).
Proof.
  intros [Hl Hs]. unfold Update. destruct (endpointName params) as [ep |]; [|done].
  intros [= <- <-]. unfold observed. cbn [store numReq].
  rewrite (retained_ext m); cycle 1.
  { done. }
  { eapply Forall_impl; [exact Hs |]. simpl. intros s [_ Hne].
    unfold incr. by rewrite deref_set_ne. }
  unfold incr. rewrite deref_set_eq by done. rewrite zsum_insert.
  unfold get, int_add.
  rewrite Z.add_assoc, int_wrap_add_r. f_equal. lia.
Qed.

End ReqExport.

(** ** Requests per endpoint: runs of updates *)

Module ReqRuns.
Import ReqPerEndpoint ReqSpec ReqWf ReqExport.

Lemma Update_returns m params :
  is_Some (endpointName params) -> ∃ m', Update m params = Returns m' None.
Proof. intros [ep Hep]. unfold Update. rewrite Hep. eauto. Qed.

Lemma int_wrap_step a b (k : nat) :
  int_wrap a = int_wrap (b + 1) ->
  int_wrap (a + Z.of_nat k) = int_wrap (b + Z.of_nat (S k)).
Proof.
  intros Hab. rewrite <- int_wrap_add_l, Hab, int_wrap_add_l. f_equal. lia.
Qed.

Lemma updates_observed ps : ∀ m,
  wf m -> Forall (fun p => is_Some (endpointName p)) ps ->
  ∃ m', updates Update m ps = Some m' ∧ wf m' ∧
        int_wrap (observed m') = int_wrap (observed m + Z.of_nat (length ps)).
Proof.
  induction ps as [| p ps IH]; intros m Hwf Hps.
  - exists m. split; [done | split; [done |]]. f_equal. simpl. lia.
  - apply Forall_cons in Hps as [Hp Hps].
    destruct (Update_returns m p Hp) as [m' Hm']. cbn [updates]. rewrite Hm'.
    destruct (IH m' (req_wf_Update _ _ _ _ Hwf Hm') Hps) as (m2 & Hrun & Hwf2 & Hobs).
    exists m2. split; [done | split; [done |]].
    rewrite Hobs. apply int_wrap_step. eapply observed_Update; eauto.
Qed.

Lemma exportEach_overall ps : ∀ m out,
  wf m -> out !! overallName base = Some (f32_of_int (int_wrap (observed m))) ->
  Forall (fun p => is_Some (endpointName p)) ps ->
  ∃ m1 out1, exportEach Update ValueMap m out ps = Some (m1, out1) ∧
    out1 !! overallName base
    = Some (f32_of_int (int_wrap (observed m + Z.of_nat (length ps)))).
Proof.
  induction ps as [| p ps IH]; intros m out Hwf Hout Hps.
  - exists m, out. split; [done |]. rewrite Hout. do 3 f_equal. simpl. lia.
  - apply Forall_cons in Hps as [Hp Hps].
    destruct (Update_returns m p Hp) as [m' Hm']. cbn [exportEach]. rewrite Hm'.
    pose proof (req_wf_Update _ _ _ _ Hwf Hm') as Hwf'.
    destruct (IH (ValueMap m').1 (ValueMap m').2) as (m1 & out1 & Hrun & Hout1).
    + by apply req_wf_ValueMap.
    + by rewrite ValueMap_overall, observed_ValueMap.
    + done.
    + exists m1, out1. split; [done |]. rewrite Hout1, observed_ValueMap.
      do 2 f_equal. apply int_wrap_step. eapply observed_Update; eauto.
Qed.

End ReqRuns.

(** ** Response time per endpoint: an export resets the metric *)

Module RespExport.
Import ResponseTimePerEndpoint RespSpec.

Lemma resp_ValueMap_state m :
  (ValueMap m).1 = lm (map_fold addEndpoint (start m) (responseTimeMap m)).
Proof. done. Qed.

Lemma loop_state m (rt : gmap string (list float32)) ep :
  responseTimeMap (lm (map_fold addEndpoint (start m) rt)) !! ep
  = match rt !! ep with Some _ => Some fresh_slice | None => responseTimeMap m !! ep end ∧
  numReq (lm (map_fold addEndpoint (start m) rt)) !! ep
  = match rt !! ep with Some _ => Some 0 | None => numReq m !! ep end.
Proof.
  apply (map_fold_weak_ind
    (fun l (rt : gmap string (list float32)) =>
       responseTimeMap (lm l) !! ep
       = match rt !! ep with Some _ => Some fresh_slice | None => responseTimeMap m !! ep end ∧
       numReq (lm l) !! ep = match rt !! ep with Some _ => Some 0 | None => numReq m !! ep end)).
  - by rewrite lookup_empty.
  - intros i x rt' l Hi [IH1 IH2]. cbn [addEndpoint lm responseTimeMap numReq].
    destruct (decide (i = ep)) as [-> | Hne].
    + by rewrite !lookup_insert_eq.
    + by rewrite !lookup_insert_ne.
Qed.

(** After an export every endpoint of the metric is back to no request
    and to the slice [make([]float32, 1)]. *)
Lemma ValueMap_resets m ep values :
  responseTimeMap m !! ep = Some values ->
  responseTimeMap (ValueMap m).1 !! ep = Some fresh_slice ∧
  numReq (ValueMap m).1 !! ep = Some 0.
Proof.
  intros Hep. rewrite resp_ValueMap_state.
  destruct (loop_state m (responseTimeMap m) ep) as [H1 H2].
  by rewrite H1, H2, Hep.
Qed.

End RespExport.

(** ** The test of the request count *)

(** [TestReqPerEndpoint]: a request to ["log"], an export, a second
    request, and the second export reports 2 for ["log"]. *)
Lemma req_test_two_requests :
  entryOf (exportEach ReqPerEndpoint.Update ReqPerEndpoint.ValueMap ReqPerEndpoint.New ∅
             [params_endpoint "log"; params_endpoint "log"])
          (metricName ReqPerEndpoint.base "log")
  = Some f32_two.
Proof. vm_compute. reflexivity. Qed.

(** * The properties of the specification *)

(** ** C1: exports are cumulative for the request count *)

Lemma f32_values :
  f32_of_int 1 = f32_one ∧ f32_of_int 2 = f32_two ∧ f32_of_int 3 = f32_three ∧
  f32_of_int 4 = f32_four ∧
  f32_div (f32_of_int 1) (f32_of_int 2) = f32_half ∧
  f32_div (f32_of_int 1) (f32_of_int 4) = f32_quarter.
Proof. by vm_compute. Qed.

(** C1 does not hold of the response-time metric: two requests
    of 2 ms and of 4 ms to one endpoint. Exported after each request, the
    last export reports a mean of 4 ms; exported once after both, 3 ms. *)
Lemma response_time_export_not_cumulative :
  let ps := [params_start "log" 3000000; params_start "log" 1000000] in
  let Update := ResponseTimePerEndpoint.Update 5000000 in
  let ValueMap := ResponseTimePerEndpoint.ValueMap in
  let overall := overallName ResponseTimePerEndpoint.base in
  entryOf (exportEach Update ValueMap ResponseTimePerEndpoint.New ∅ ps) overall
  = Some f32_four ∧
  entryOf (exportOnce Update ValueMap ResponseTimePerEndpoint.New ps) overall
  = Some f32_three ∧
  entryOf (exportEach Update ValueMap ResponseTimePerEndpoint.New ∅ ps) overall
  ≠ entryOf (exportOnce Update ValueMap ResponseTimePerEndpoint.New ps) overall.
Proof.
  intros ps Update ValueMap overall.
  assert (H1 : entryOf (exportEach Update ValueMap ResponseTimePerEndpoint.New ∅ ps) overall
               = Some f32_four) by (vm_compute; reflexivity).
  assert (H2 : entryOf (exportOnce Update ValueMap ResponseTimePerEndpoint.New ps) overall
               = Some f32_three) by (vm_compute; reflexivity).
  split; [exact H1 |]. split; [exact H2 |]. rewrite H1, H2. discriminate.
Qed.

(** C1, for the request count. Request-count metric: for every run of one or more
    updates with no [Clear], the export after every update and the single
    export after all of them report the same aggregate entry, which counts
    every request the metric held before the run and every request of the
    run. Response-time metric: it keeps no snapshot, an export resets every
    endpoint it reports. *)
Theorem req_export_cumulative :
  (∀ (m : ReqPerEndpoint.t) (ps : list (gmap string value)) (out0 : gmap string float32),
     ReqSpec.wf m -> ps ≠ [] ->
     Forall (fun p => is_Some (endpointName p)) ps ->
     ∃ m1 out1 m2 out2,
       exportEach ReqPerEndpoint.Update ReqPerEndpoint.ValueMap m out0 ps = Some (m1, out1) ∧
       exportOnce ReqPerEndpoint.Update ReqPerEndpoint.ValueMap m ps = Some (m2, out2) ∧
       out1 !! overallName ReqPerEndpoint.base = out2 !! overallName ReqPerEndpoint.base ∧
       out2 !! overallName ReqPerEndpoint.base
       = Some (f32_of_int (int_wrap (ReqSpec.observed m + Z.of_nat (length ps)))))
  ∧
  (∀ (m : ResponseTimePerEndpoint.t) (endpoint : string) (values : list float32),
     ResponseTimePerEndpoint.responseTimeMap m !! endpoint = Some values ->
     let m' := (ResponseTimePerEndpoint.ValueMap m).1 in
     ResponseTimePerEndpoint.responseTimeMap m' !! endpoint
     = Some ResponseTimePerEndpoint.fresh_slice ∧
     ResponseTimePerEndpoint.numReq m' !! endpoint = Some 0).
Proof.
  split.
  - intros m ps out0 Hwf Hne Hps.
    destruct (ReqRuns.updates_observed ps m Hwf Hps) as (m' & Hup & Hwf' & Hobs).
    assert (∃ m1 out1,
      exportEach ReqPerEndpoint.Update ReqPerEndpoint.ValueMap m out0 ps = Some (m1, out1) ∧
      out1 !! overallName ReqPerEndpoint.base
      = Some (f32_of_int (int_wrap (ReqSpec.observed m + Z.of_nat (length ps)))))
      as (m1 & out1 & Hrun & Hout1).
    { destruct ps as [| p ps]; [done |].
      apply Forall_cons in Hps as [Hp Hps].
      destruct (ReqRuns.Update_returns m p Hp) as [mp Hmp].
      cbn [exportEach]. rewrite Hmp.
      pose proof (ReqWf.req_wf_Update _ _ _ _ Hwf Hmp) as Hwfp.
      destruct (ReqRuns.exportEach_overall ps
                  (ReqPerEndpoint.ValueMap mp).1 (ReqPerEndpoint.ValueMap mp).2)
        as (m1 & out1 & Hrun & Hout1).
      - by apply ReqWf.req_wf_ValueMap.
      - by rewrite ReqExport.ValueMap_overall, ReqExport.observed_ValueMap.
      - done.
      - exists m1, out1. split; [done |].
        rewrite Hout1, ReqExport.observed_ValueMap. do 2 f_equal.
        apply ReqRuns.int_wrap_step. eapply ReqExport.observed_Update; eauto. }
    exists m1, out1, (ReqPerEndpoint.ValueMap m').1, (ReqPerEndpoint.ValueMap m').2.
    split; [done |]. split.
    { unfold exportOnce. rewrite Hup. simpl. by destruct (ReqPerEndpoint.ValueMap m'). }
    rewrite Hout1, ReqExport.ValueMap_overall, Hobs. done.
  - intros m endpoint values Hep. by eapply RespExport.ValueMap_resets.
Qed.

Lemma req_export_cumulative_witness :
  let ps := [params_endpoint "log"; params_endpoint "log"] in
  ReqSpec.wf ReqPerEndpoint.New ∧ ps ≠ [] ∧
  Forall (fun p => is_Some (endpointName p)) ps ∧
  ∃ m1 out1 m2 out2,
    exportEach ReqPerEndpoint.Update ReqPerEndpoint.ValueMap ReqPerEndpoint.New ∅ ps
    = Some (m1, out1) ∧
    exportOnce ReqPerEndpoint.Update ReqPerEndpoint.ValueMap ReqPerEndpoint.New ps
    = Some (m2, out2) ∧
    out1 !! overallName ReqPerEndpoint.base = out2 !! overallName ReqPerEndpoint.base ∧
    out2 !! overallName ReqPerEndpoint.base
    = Some (f32_of_int (int_wrap (ReqSpec.observed ReqPerEndpoint.New + Z.of_nat (length ps)))).
Proof.
  intros ps.
  assert (Hwf : ReqSpec.wf ReqPerEndpoint.New) by apply ReqWf.req_wf_New.
  assert (Hne : ps ≠ []) by done.
  assert (Hps : Forall (fun p => is_Some (endpointName p)) ps).
  { unfold ps. repeat (apply List.Forall_cons; [by eexists |]). apply List.Forall_nil. }
  split; [done |]. split; [done |]. split; [done |].
  exact (proj1 req_export_cumulative ReqPerEndpoint.New ps ∅ Hwf Hne Hps).
Defined.

(** ** Error rate per endpoint: the addresses stay allocated *)

Module ErrWf.
Import ErrorRatePerEndpoint ErrSpec.

Lemma err_wf_New : wf New.
Proof. vm_compute. repeat split; lia. Qed.

Lemma init_fields m :
  numReq (init m) = numReq m ∧ errorCount (init m) = errorCount m ∧
  snapshots (init m) = snapshots m ∧ length (store (init m)) = length (store m).
Proof. unfold init. cbn. by rewrite !length_set. Qed.

Lemma wf_init m : wf m -> wf (init m).
Proof.
  intros (Hn & He & Hne). destruct (init_fields m) as (Hn' & He' & _ & Hlen).
  unfold wf. by rewrite Hn', He', Hlen.
Qed.

Lemma err_wf_doSnapshot m : wf m -> wf (doSnapshot m).
Proof. intros Hwf. unfold doSnapshot. by apply wf_init. Qed.

Lemma err_ValueMap_state m : (ValueMap m).1 = doSnapshot m.
Proof.
  unfold ValueMap.
  destruct (sumSnapshots _ _) as [ec rc].
  destruct (map_fold _ _ ec) as [[er eo] ro]. by destruct (0 <? ro).
Qed.

Lemma err_wf_ValueMap m : wf m -> wf (ValueMap m).1.
Proof. rewrite err_ValueMap_state. apply err_wf_doSnapshot. Qed.

Lemma err_wf_Clear m : wf m -> wf (Clear m).
Proof. done. Qed.

(** What [Update] does to the store when the status code is an [int]. *)
Lemma Update_status m params endpoint statusCode :
  endpointName params = Some endpoint ->
  params !! "statusCode" = Some (VInt statusCode) ->
  Update m params
  = Returns {| store := incr (if 400 <=? statusCode
                              then incr (store m) (errorCount m) endpoint
                              else store m) (numReq m) endpoint;
               numReq := numReq m; errorCount := errorCount m;
               snapshots := snapshots m |} None.
Proof. intros Hep Hsc. unfold Update. by rewrite Hep, Hsc. Qed.

Lemma err_wf_Update m params m' e : wf m -> Update m params = Returns m' e -> wf m'.
Proof.
  intros (Hn & He & Hne). unfold Update.
  destruct (endpointName params); [|done].
  destruct (params !! "statusCode") as [[| code |] |]; try done.
  intros [= <- <-]. unfold wf. cbn. rewrite length_incr.
  by destruct (400 <=? code); rewrite ?length_incr.
Qed.

Lemma err_reachable_wf m : reachable m -> wf m.
Proof.
  induction 1; eauto using err_wf_New, err_wf_Update, err_wf_ValueMap, err_wf_Clear.
Qed.

(** Without a status code the call panics, whatever the metric holds. *)
Lemma Update_no_status m params :
  params !! "statusCode" = None -> Update m params = Panics.
Proof. intros Hsc. unfold Update. rewrite Hsc. by destruct (endpointName params). Qed.

End ErrWf.

(** ** Response time per endpoint: updates *)

Module RespUpdate.
Import ResponseTimePerEndpoint RespSpec.

Lemma resp_wf_New : wf New.
Proof. by eexists. Qed.

(** The sibling check: a missing start time is an [error] and the metric
    is left as it was. *)
Lemma Update_no_start now m params :
  params !! "reqStartTime" = None ->
  Update now m params = Returns m (Some errMissingStart).
Proof. intros Hst. unfold Update. by rewrite Hst. Qed.

Lemma Update_start now m params endpoint startTime :
  endpointName params = Some endpoint ->
  params !! "reqStartTime" = Some (VTime startTime) ->
  Update now m params
  = Returns
      {| numReq := <[endpoint := int_add (zget (numReq m) endpoint) 1]> (numReq m);
         responseTimeMap :=
           <[endpoint := default [] (responseTimeMap m !! endpoint)
               ++ [f32_div (f32_of_int (time_Since now startTime))
                           (f32_of_int Millisecond)]]> (responseTimeMap m) |}
      None.
Proof. intros Hep Hst. unfold Update. by rewrite Hst, Hep. Qed.

Lemma resp_wf_Update now m params m' e :
  wf m -> Update now m params = Returns m' e -> wf m'.
Proof.
  unfold wf, Update. intros Hwf.
  destruct (params !! "reqStartTime") as [[| | st] |]; try done.
  - destruct (endpointName params) as [ep |]; [|done].
    intros [= <- <-]. cbn. destruct (decide (ep = unknownEndpoint)) as [-> | Hne].
    + rewrite lookup_insert_eq. by eexists.
    + by rewrite lookup_insert_ne.
  - by intros [= <- <-].
Qed.

Lemma resp_wf_ValueMap m : wf m -> wf (ValueMap m).1.
Proof.
  intros [values Hv]. unfold wf.
  destruct (RespExport.ValueMap_resets m unknownEndpoint values Hv) as [-> _].
  by eexists.
Qed.

Lemma resp_reachable_wf m : reachable m -> wf m.
Proof.
  induction 1; eauto using resp_wf_New, resp_wf_Update, resp_wf_ValueMap.
Qed.

End RespUpdate.

(** ** C7: what an update of the error rate counts *)

(** C7. An update of the error-rate metric with an [int] status code adds
    one to the request count of the endpoint of the request ([x++], which
    is [x + 1] below the largest [int]); it adds one to the error count of
    that endpoint when the status code is 400 or more and leaves it when the
    status code is less; the counts of every other endpoint stay. *)
Theorem error_rate_update_counts
    (m : ErrorRatePerEndpoint.t) (params : gmap string value)
    (endpoint : string) (statusCode : Z) :
  ErrSpec.wf m ->
  endpointName params = Some endpoint ->
  params !! "statusCode" = Some (VInt statusCode) ->
  let requests m e := get (ErrorRatePerEndpoint.store m) (ErrorRatePerEndpoint.numReq m) e in
  let errors m e := get (ErrorRatePerEndpoint.store m) (ErrorRatePerEndpoint.errorCount m) e in
  ∃ m', ErrorRatePerEndpoint.Update m params = Returns m' None ∧
    requests m' endpoint = int_add (requests m endpoint) 1 ∧
    (min_int <= requests m endpoint < max_int ->
     requests m' endpoint = requests m endpoint + 1) ∧
    (400 <= statusCode -> errors m' endpoint = int_add (errors m endpoint) 1) ∧
    (400 <= statusCode -> min_int <= errors m endpoint < max_int ->
     errors m' endpoint = errors m endpoint + 1) ∧
    (statusCode < 400 -> errors m' endpoint = errors m endpoint) ∧
    (∀ e, e ≠ endpoint -> requests m' e = requests m e ∧ errors m' e = errors m e).
Proof.
  intros (Hn & He & Hne) Hep Hsc requests errors.
  eexists. split; [by apply ErrWf.Update_status |].
  unfold requests, errors. cbn [ErrorRatePerEndpoint.store
    ErrorRatePerEndpoint.numReq ErrorRatePerEndpoint.errorCount].
  assert (Hreq :
    get (incr (if 400 <=? statusCode
               then incr (ErrorRatePerEndpoint.store m) (ErrorRatePerEndpoint.errorCount m) endpoint
               else ErrorRatePerEndpoint.store m) (ErrorRatePerEndpoint.numReq m) endpoint)
        (ErrorRatePerEndpoint.numReq m) endpoint
    = int_add (get (ErrorRatePerEndpoint.store m) (ErrorRatePerEndpoint.numReq m) endpoint) 1).
  { rewrite get_incr_eq by (destruct (400 <=? statusCode); by rewrite ?length_incr).
    f_equal. destruct (400 <=? statusCode); [|done].
    apply get_incr_ne. left. congruence. }
  split; [exact Hreq |]. split.
  { intros Hr. rewrite Hreq. by apply int_add_succ. }
  assert (Herr : 400 <= statusCode ->
    get (incr (if 400 <=? statusCode
               then incr (ErrorRatePerEndpoint.store m) (ErrorRatePerEndpoint.errorCount m) endpoint
               else ErrorRatePerEndpoint.store m) (ErrorRatePerEndpoint.numReq m) endpoint)
        (ErrorRatePerEndpoint.errorCount m) endpoint
    = int_add (get (ErrorRatePerEndpoint.store m) (ErrorRatePerEndpoint.errorCount m) endpoint) 1).
  { intros Hge. rewrite (proj2 (Z.leb_le _ _) Hge).
    rewrite get_incr_ne by (left; congruence). by apply get_incr_eq. }
  split; [exact Herr |]. split.
  { intros Hge Hr. rewrite Herr by done. by apply int_add_succ. }
  split.
  { intros Hlt. rewrite (proj2 (Z.leb_gt _ _) Hlt).
    apply get_incr_ne. left. congruence. }
  intros e Hne'. split.
  - rewrite get_incr_ne by (right; congruence).
    destruct (400 <=? statusCode); [|done]. apply get_incr_ne. right. congruence.
  - rewrite get_incr_ne by (right; congruence).
    destruct (400 <=? statusCode); [|done]. apply get_incr_ne. right. congruence.
Qed.

Lemma error_rate_update_counts_witness :
  ∃ m', ErrorRatePerEndpoint.Update ErrorRatePerEndpoint.New (params_status "log" 404)
        = Returns m' None ∧
    get (ErrorRatePerEndpoint.store m') (ErrorRatePerEndpoint.numReq m') "log" = 1 ∧
    get (ErrorRatePerEndpoint.store m') (ErrorRatePerEndpoint.errorCount m') "log" = 1.
Proof.
  destruct (error_rate_update_counts ErrorRatePerEndpoint.New
              (params_status "log" 404) "log" 404 ErrWf.err_wf_New eq_refl eq_refl)
    as (m' & Hup & Hreq & _ & Herr & _).
  exists m'. split; [exact Hup |]. split.
  - rewrite Hreq. reflexivity.
  - rewrite Herr by lia. reflexivity.
Defined.

(** ** C9: the endpoint [other] and new endpoints *)

(** C9. For each of the three metrics: an update whose parameter bag has
    no [endpointName] is counted under ["other"], and an update for an
    endpoint string the metric has no bucket for returns without error and
    leaves a bucket holding that one request. (The error-rate and the
    response-time metric are given the attribute they read, a status code
    and a start time.) *)
Theorem update_endpoint_buckets :
  (∀ params : gmap string value, params !! "endpointName" = None ->
     (∀ m, ReqSpec.wf m ->
        ∃ m', ReqPerEndpoint.Update m params = Returns m' None ∧
          get (ReqPerEndpoint.store m') (ReqPerEndpoint.numReq m') "other"
          = int_add (get (ReqPerEndpoint.store m) (ReqPerEndpoint.numReq m) "other") 1) ∧
     (∀ m statusCode, ErrSpec.wf m ->
        params !! "statusCode" = Some (VInt statusCode) ->
        ∃ m', ErrorRatePerEndpoint.Update m params = Returns m' None ∧
          get (ErrorRatePerEndpoint.store m') (ErrorRatePerEndpoint.numReq m') "other"
          = int_add (get (ErrorRatePerEndpoint.store m) (ErrorRatePerEndpoint.numReq m) "other") 1) ∧
     (∀ now m startTime,
        params !! "reqStartTime" = Some (VTime startTime) ->
        ∃ m', ResponseTimePerEndpoint.Update now m params = Returns m' None ∧
          ResponseTimePerEndpoint.numReq m' !! "other"
          = Some (int_add (zget (ResponseTimePerEndpoint.numReq m) "other") 1) ∧
          ResponseTimePerEndpoint.responseTimeMap m' !! "other"
          = Some (default [] (ResponseTimePerEndpoint.responseTimeMap m !! "other")
                  ++ [f32_div (f32_of_int (time_Since now startTime))
                              (f32_of_int Millisecond)])))
  ∧
  (∀ (params : gmap string value) (endpoint : string),
     params !! "endpointName" = Some (VString endpoint) ->
     (∀ m, ReqSpec.wf m ->
        deref (ReqPerEndpoint.store m) (ReqPerEndpoint.numReq m) !! endpoint = None ->
        ∃ m', ReqPerEndpoint.Update m params = Returns m' None ∧
          deref (ReqPerEndpoint.store m') (ReqPerEndpoint.numReq m') !! endpoint = Some 1) ∧
     (∀ m statusCode, ErrSpec.wf m ->
        params !! "statusCode" = Some (VInt statusCode) ->
        deref (ErrorRatePerEndpoint.store m) (ErrorRatePerEndpoint.numReq m) !! endpoint = None ->
        ∃ m', ErrorRatePerEndpoint.Update m params = Returns m' None ∧
          deref (ErrorRatePerEndpoint.store m') (ErrorRatePerEndpoint.numReq m') !! endpoint
          = Some 1) ∧
     (∀ now m startTime,
        params !! "reqStartTime" = Some (VTime startTime) ->
        ResponseTimePerEndpoint.numReq m !! endpoint = None ->
        ResponseTimePerEndpoint.responseTimeMap m !! endpoint = None ->
        ∃ m', ResponseTimePerEndpoint.Update now m params = Returns m' None ∧
          ResponseTimePerEndpoint.numReq m' !! endpoint = Some 1 ∧
          ResponseTimePerEndpoint.responseTimeMap m' !! endpoint
          = Some [f32_div (f32_of_int (time_Since now startTime))
                          (f32_of_int Millisecond)])).
Proof.
  split.
  - intros params Hno. apply endpointName_absent in Hno as Hep.
    split; [| split].
    + intros m [Hl _]. eexists. split.
      * unfold ReqPerEndpoint.Update. by rewrite Hep.
      * cbn. by apply get_incr_eq.
    + intros m statusCode (Hn & He & Hne) Hsc. eexists. split.
      * by apply ErrWf.Update_status.
      * cbn. rewrite get_incr_eq by (destruct (400 <=? statusCode); by rewrite ?length_incr).
        f_equal. destruct (400 <=? statusCode); [|done].
        apply get_incr_ne. left. congruence.
    + intros now m startTime Hst. eexists. split.
      * by apply RespUpdate.Update_start.
      * cbn. by rewrite !lookup_insert_eq.
  - intros params endpoint Hname. apply endpointName_string in Hname as Hep.
    split; [| split].
    + intros m [Hl _] Hnew. eexists. split.
      * unfold ReqPerEndpoint.Update. by rewrite Hep.
      * cbn. by apply incr_creates.
    + intros m statusCode (Hn & He & Hne) Hsc Hnew. eexists. split.
      * by apply ErrWf.Update_status.
      * cbn. apply incr_creates.
        { destruct (400 <=? statusCode); by rewrite ?length_incr. }
        destruct (400 <=? statusCode); [|done].
        unfold incr. rewrite deref_set_ne; [done | congruence].
    + intros now m startTime Hst Hn Hrt. eexists. split.
      * by apply RespUpdate.Update_start.
      * cbn. rewrite !lookup_insert_eq. unfold zget. by rewrite Hn, Hrt.
Qed.

Lemma update_endpoint_buckets_witness :
  (∃ m', ReqPerEndpoint.Update ReqPerEndpoint.New (∅ : gmap string value)
         = Returns m' None ∧
     get (ReqPerEndpoint.store m') (ReqPerEndpoint.numReq m') "other" = 1) ∧
  (∃ m', ErrorRatePerEndpoint.Update ErrorRatePerEndpoint.New (params_status "log" 200)
         = Returns m' None ∧
     deref (ErrorRatePerEndpoint.store m') (ErrorRatePerEndpoint.numReq m') !! "log"
     = Some 1) ∧
  (∃ m', ResponseTimePerEndpoint.Update 5000000 ResponseTimePerEndpoint.New
           (params_start "log" 3000000) = Returns m' None ∧
     ResponseTimePerEndpoint.numReq m' !! "log" = Some 1 ∧
     ResponseTimePerEndpoint.responseTimeMap m' !! "log" = Some [f32_two]).
Proof.
  destruct update_endpoint_buckets as [Hother Hnew].
  split; [| split].
  - destruct (proj1 (Hother (∅ : gmap string value) (lookup_empty _))
                ReqPerEndpoint.New ReqWf.req_wf_New) as (m' & Hup & Hget).
    exists m'. split; [exact Hup |]. rewrite Hget. reflexivity.
  - destruct (proj1 (proj2 (Hnew (params_status "log" 200) "log" eq_refl))
                ErrorRatePerEndpoint.New 200 ErrWf.err_wf_New eq_refl eq_refl)
      as (m' & Hup & Hget).
    exists m'. split; [exact Hup | exact Hget].
  - destruct (proj2 (proj2 (Hnew (params_start "log" 3000000) "log" eq_refl))
                5000000 ResponseTimePerEndpoint.New 3000000 eq_refl eq_refl eq_refl)
      as (m' & Hup & Hn & Hrt).
    exists m'. split; [exact Hup |]. split; [exact Hn |]. rewrite Hrt. reflexivity.
Defined.

(** ** C5: an update that lacks the attribute it reads *)

(** C5, at the failing input: the error-rate metric is updated with a
    parameter bag that has an endpoint and no status code. The call panics
    instead of returning an error. The response-time metric, on a bag with
    no start time, returns the error and stays as it was. *)
Theorem error_rate_update_without_status_panics :
  ErrorRatePerEndpoint.Update ErrorRatePerEndpoint.New (params_endpoint "log") = Panics ∧
  ResponseTimePerEndpoint.Update 0 ResponseTimePerEndpoint.New (params_endpoint "log")
  = Returns ResponseTimePerEndpoint.New (Some ResponseTimePerEndpoint.errMissingStart).
Proof. split; reflexivity. Qed.

(** ** C3: [Clear] and the next export of the error rate *)

(** C3, at the failing input: one request to ["log"] with status 404, an
    export, [Clear], the next export. The second export still reports an
    error rate of 1 for ["log"] and for the aggregate: [Clear] empties the
    list of snapshots, and the next [doSnapshot] puts the live maps, which
    were never reset, back into it. *)
Theorem error_rate_clear_does_not_reset :
  ErrScenario.exportClearExport (params_status "log" 404)
    (metricName ErrorRatePerEndpoint.base "log")
  = Some (Some f32_one, Some f32_one) ∧
  ErrScenario.exportClearExport (params_status "log" 404)
    (overallName ErrorRatePerEndpoint.base)
  = Some (Some f32_one, Some f32_one).
Proof. split; vm_compute; reflexivity. Qed.

(** The siblings reset: after an export and [Clear], every entry of the
    next export of the request count and of the response time is 0. *)
Lemma req_clear_resets m :
  (ReqPerEndpoint.ValueMap (ReqPerEndpoint.Clear (ReqPerEndpoint.ValueMap m).1)).2
  = {[ overallName ReqPerEndpoint.base := f32_zero ]}.
Proof.
  rewrite ReqWf.req_ValueMap_state.
  unfold ReqPerEndpoint.ValueMap, ReqPerEndpoint.Clear, ReqPerEndpoint.doSnapshot, alloc.
  cbn [ReqPerEndpoint.store ReqPerEndpoint.numReq ReqPerEndpoint.snapshots
       fst snd app foldl ReqPerEndpoint.snap_numReq].
  rewrite !deref_app_empty.
  rewrite (deref_fresh (ReqPerEndpoint.store m) (length (ReqPerEndpoint.store m ++ [∅])))
    by (rewrite length_app; simpl; lia).
  by rewrite map_fold_empty.
Qed.

Lemma resp_zero_export m :
  (∀ i, is_Some (ResponseTimePerEndpoint.responseTimeMap m !! i) ->
        zget (ResponseTimePerEndpoint.numReq m) i = 0) ->
  ∀ name v, (ResponseTimePerEndpoint.ValueMap m).2 !! name = Some v -> v = f32_zero.
Proof.
  intros Hzero.
  assert (
    (∀ name v, ResponseTimePerEndpoint.metrics
                 (map_fold ResponseTimePerEndpoint.addEndpoint (RespSpec.start m)
                    (ResponseTimePerEndpoint.responseTimeMap m)) !! name = Some v ->
               v = f32_zero) ∧
    ResponseTimePerEndpoint.numReqAllEndpoints
      (map_fold ResponseTimePerEndpoint.addEndpoint (RespSpec.start m)
         (ResponseTimePerEndpoint.responseTimeMap m)) = 0) as [Hm Hn].
  { revert Hzero.
    apply (map_fold_weak_ind
      (fun l (d : gmap string (list float32)) =>
         (∀ i, is_Some (d !! i) -> zget (ResponseTimePerEndpoint.numReq m) i = 0) ->
         ((∀ name v, ResponseTimePerEndpoint.metrics l !! name = Some v -> v = f32_zero) ∧
          ResponseTimePerEndpoint.numReqAllEndpoints l = 0) ∧
         ∀ i, zget (ResponseTimePerEndpoint.numReq (ResponseTimePerEndpoint.lm l)) i = 0 ∨
              zget (ResponseTimePerEndpoint.numReq (ResponseTimePerEndpoint.lm l)) i
              = zget (ResponseTimePerEndpoint.numReq m) i)).
    - intros _. split; [split; [| done] |].
      + intros name v. unfold RespSpec.start.
        cbn [ResponseTimePerEndpoint.metrics]. by rewrite lookup_empty.
      + intros i. by right.
    - intros i x d l Hi IH Hz.
      destruct IH as [[IHm IHn] IHq].
      { intros j Hj. apply Hz. rewrite lookup_insert_ne; [done |].
        intros <-. rewrite Hi in Hj. by destruct Hj. }
      assert (zget (ResponseTimePerEndpoint.numReq (ResponseTimePerEndpoint.lm l)) i = 0)
        as Hi0.
      { destruct (IHq i) as [? | ->]; [done |]. apply Hz.
        rewrite lookup_insert_eq. by eexists. }
      cbn [ResponseTimePerEndpoint.addEndpoint ResponseTimePerEndpoint.metrics
           ResponseTimePerEndpoint.numReqAllEndpoints ResponseTimePerEndpoint.lm
           ResponseTimePerEndpoint.numReq].
      rewrite Hi0. change (f32_gt0 (f32_of_int 0)) with false. cbn iota.
      split; [split |].
      + intros name v.
        destruct (decide (metricName ResponseTimePerEndpoint.base i = name)) as [<- | Hne].
        * rewrite lookup_insert_eq. by intros [= <-].
        * rewrite lookup_insert_ne by done. apply IHm.
      + by rewrite IHn.
      + intros j. destruct (decide (i = j)) as [<- | Hne].
        * left. unfold zget. by rewrite lookup_insert_eq.
        * unfold zget. rewrite lookup_insert_ne by done. apply IHq. }
  intros name v. unfold ResponseTimePerEndpoint.ValueMap. fold (RespSpec.start m).
  cbn [snd]. rewrite Hn. change (0 <? 0) with false. cbn iota.
  destruct (decide (overallName ResponseTimePerEndpoint.base = name)) as [<- | Hne].
  - rewrite lookup_insert_eq. by intros [= <-].
  - rewrite lookup_insert_ne by done. apply Hm.
Qed.

Lemma resp_clear_resets m name v :
  (ResponseTimePerEndpoint.ValueMap
     (ResponseTimePerEndpoint.Clear (ResponseTimePerEndpoint.ValueMap m).1)).2 !! name
  = Some v ->
  v = f32_zero.
Proof.
  apply resp_zero_export. intros i.
  unfold ResponseTimePerEndpoint.Clear. rewrite RespExport.resp_ValueMap_state.
  destruct (RespExport.loop_state m (ResponseTimePerEndpoint.responseTimeMap m) i)
    as [H1 H2].
  rewrite H1. unfold zget. rewrite H2.
  destruct (ResponseTimePerEndpoint.responseTimeMap m !! i); [done |].
  by intros [? ?].
Qed.

(** ** C4: a snapshot of the error rate after it is taken *)

(** C4, at the failing input: one request to ["log"] with status 404 and
    an export, which takes the first snapshot; then a request to ["log"]
    with status 500. The snapshot held one request and one error (the pair
    [(1, 1)]); after the update it holds two and two, because its maps are
    the live maps. *)
Theorem error_rate_snapshot_changes :
  ErrScenario.snapshotAcrossUpdate
    (params_status "log" 404) (params_status "log" 500) "log"
  = Some (Some (1, 1), Some (2, 2)).
Proof. vm_compute. reflexivity. Qed.

(** The sibling: a snapshot of the request count is another object than
    the live map, an update leaves it as it is. *)
Lemma req_snapshot_kept m params m' e s :
  ReqSpec.wf m -> ReqPerEndpoint.Update m params = Returns m' e ->
  s ∈ ReqPerEndpoint.snapshots m ->
  s ∈ ReqPerEndpoint.snapshots m' ∧
  deref (ReqPerEndpoint.store m') (ReqPerEndpoint.snap_numReq s)
  = deref (ReqPerEndpoint.store m) (ReqPerEndpoint.snap_numReq s).
Proof.
  intros [Hl Hs] Hup Hin. unfold ReqPerEndpoint.Update in Hup.
  destruct (endpointName params); [|done]. injection Hup as <- <-.
  split; [done |]. cbn. unfold incr.
  rewrite Forall_forall in Hs. destruct (Hs s Hin) as [_ Hne].
  by rewrite deref_set_ne.
Qed.

(** ** C6: the scenario 404, 200, export, 200, 200, export *)

(** C6, at the failing input: the four requests carry a status code and no
    endpoint, so that they are counted under ["other"]. The second export
    reports 0 for ["other"], not 0.25: [doSnapshot] zeroes the entry
    ["other"] of the maps it has just stored. For the endpoint ["log"] the
    second export reports 0.25. *)
Theorem error_rate_scenario_other :
  ErrScenario.twoExports params_status_only (metricName ErrorRatePerEndpoint.base "other")
  = Some f32_zero ∧
  ErrScenario.twoExports (params_status "log") (metricName ErrorRatePerEndpoint.base "log")
  = Some f32_quarter.
Proof. split; vm_compute; reflexivity. Qed.

(** ** C8: the aggregate entry of the error rate *)

(** C8, at the failing input: one request to ["log"] with status 404 and
    three requests to ["api"] with status 200, then an export. The
    metric holds 3 requests for ["api"], yet the aggregate entry is 1, not
    1/4: the loops of [ValueMap] range over the keys of [errorCount], and
    ["api"], which has no error, has no key there. The export has no entry
    for ["api"] either. *)
Theorem error_rate_overall_skips_endpoints :
  ErrScenario.oneErrorOfFour = Some (3, Some f32_one, None) ∧
  f32_div (f32_of_int 1) (f32_of_int 4) = f32_quarter.
Proof. split; vm_compute; reflexivity. Qed.

(** ** C2: a cycle of the reporter *)

Module ReporterCycle.
Import Reporter ReporterSpec.



Lemma Req_ValueMap_snapshots m :
  ReqPerEndpoint.snapshots (ReqPerEndpoint.ValueMap m).1
  = ReqPerEndpoint.snapshots m
    ++ [ {| ReqPerEndpoint.snap_numReq := ReqPerEndpoint.numReq m |} ].
Proof. by rewrite ReqWf.req_ValueMap_state. Qed.

Lemma Req_ValueMap_deref m r :
  deref (ReqPerEndpoint.store (ReqPerEndpoint.ValueMap m).1) r
  = deref (ReqPerEndpoint.store m) r.
Proof.
  rewrite ReqWf.req_ValueMap_state. unfold ReqPerEndpoint.doSnapshot, alloc.
  cbn. by rewrite !deref_app_empty.
Qed.

Lemma Err_ValueMap_snapshots m :
  ErrorRatePerEndpoint.snapshots (ErrorRatePerEndpoint.ValueMap m).1
  = ErrorRatePerEndpoint.snapshots m
    ++ [ {| ErrorRatePerEndpoint.snap_numReq := ErrorRatePerEndpoint.numReq m;
            ErrorRatePerEndpoint.snap_errorCount := ErrorRatePerEndpoint.errorCount m |} ].
Proof. by rewrite ErrWf.err_ValueMap_state. Qed.


End ReporterCycle.



(** ** C10: the entries every export has *)

Module ErrExport.
Import ErrorRatePerEndpoint ErrSpec ErrWf.

(** The first loop of [ValueMap] gives the local [errorCount] every key
    of the [errorCount] of every snapshot. *)
Lemma addSnapshotEntry_keys h s (d : gmap string Z) acc ep :
  is_Some (d !! ep) ∨ is_Some (acc.1 !! ep) ->
  is_Some ((map_fold (addSnapshotEntry h s) acc d).1 !! ep).
Proof.
  apply (map_fold_weak_ind
    (fun r (d : gmap string Z) =>
       is_Some (d !! ep) ∨ is_Some (acc.1 !! ep) -> is_Some (r.1 !! ep))).
  - rewrite lookup_empty. intros [[? ?] | ?]; done.
  - intros i x d' r Hi IH Hor. cbn [addSnapshotEntry fst].
    destruct (decide (i = ep)) as [-> | Hne].
    + rewrite lookup_insert_eq. by eexists.
    + rewrite lookup_insert_ne by done. apply IH.
      by rewrite lookup_insert_ne in Hor.
Qed.

Lemma sumSnapshots_keys h snaps s ep :
  s ∈ snaps -> is_Some (deref h (snap_errorCount s) !! ep) ->
  is_Some ((sumSnapshots h snaps).1 !! ep).
Proof.
  unfold sumSnapshots. intros Hin Hep.
  assert (∀ acc : gmap string Z * gmap string Z,
    is_Some (acc.1 !! ep) ∨ s ∈ snaps ->
    is_Some ((foldl (fun acc snapshot =>
                map_fold (addSnapshotEntry h snapshot) acc
                         (deref h (snap_errorCount snapshot))) acc snaps).1 !! ep)) as H.
  { clear Hin. induction snaps as [| s' snaps IH]; intros acc Hor; simpl.
    - destruct Hor as [? | Hin]; [done | by apply elem_of_nil in Hin].
    - apply IH. destruct Hor as [Hacc | Hin].
      + left. apply addSnapshotEntry_keys. by right.
      + apply elem_of_cons in Hin as [<- | Hin]; [| by right].
        left. apply addSnapshotEntry_keys. by left. }
  apply H. by right.
Qed.

(** The second loop gives the export an entry for every key of the local
    [errorCount]. *)
Lemma addRate_entries ec rc (d : gmap string Z) ep :
  is_Some (d !! ep) ->
  is_Some ((map_fold (addRate ec rc) (∅, 0, 0) d).1.1 !! metricName base ep).
Proof.
  apply (map_fold_weak_ind
    (fun r (d : gmap string Z) =>
       is_Some (d !! ep) -> is_Some (r.1.1 !! metricName base ep))).
  - rewrite lookup_empty. by intros [? ?].
  - intros i x d' [[er eo] ro] Hi IH Hep. cbn [addRate fst].
    assert (is_Some (<[metricName base i := f32_zero]> er !! metricName base ep)) as Hz.
    { destruct (decide (i = ep)) as [-> | Hne].
      - rewrite lookup_insert_eq. by eexists.
      - rewrite lookup_insert_ne in Hep by done.
        destruct (decide (metricName base i = metricName base ep)) as [-> | Hn].
        + rewrite lookup_insert_eq. by eexists.
        + rewrite lookup_insert_ne by done. by apply IH. }
    destruct (f32_gt0 _); [| exact Hz]. cbn [fst].
    destruct (decide (metricName base i = metricName base ep)) as [-> | Hn].
    + rewrite lookup_insert_eq. by eexists.
    + by rewrite lookup_insert_ne.
Qed.

(** [doSnapshot] leaves the key ["other"] in the [errorCount] of the
    snapshot it appends. *)
Lemma doSnapshot_other m :
  wf m ->
  ∃ s, s ∈ snapshots (doSnapshot m) ∧
       is_Some (deref (store (doSnapshot m)) (snap_errorCount s) !! unknownEndpoint).
Proof.
  intros (Hn & He & Hne).
  exists {| snap_numReq := numReq m; snap_errorCount := errorCount m |}. split.
  - unfold doSnapshot, init. cbn [snapshots]. apply elem_of_app. right.
    by apply list_elem_of_singleton.
  - unfold doSnapshot, init.
    cbn [store numReq errorCount snapshots snap_errorCount endpoints base foldl].
    rewrite deref_set_eq by (by rewrite length_set).
    rewrite lookup_insert_eq. by eexists.
Qed.

Lemma err_ValueMap_entries m :
  wf m ->
  is_Some ((ValueMap m).2 !! overallName base) ∧
  is_Some ((ValueMap m).2 !! metricName base unknownEndpoint).
Proof.
  intros Hwf. destruct (doSnapshot_other m Hwf) as (s & Hin & Hother).
  pose proof (sumSnapshots_keys _ _ s unknownEndpoint Hin Hother) as Hkey.
  unfold ValueMap.
  destruct (sumSnapshots (store (doSnapshot m)) (snapshots (doSnapshot m)))
    as [ec rc]. cbn [fst] in Hkey.
  pose proof (addRate_entries ec rc ec unknownEndpoint Hkey) as Hentry.
  destruct (map_fold (addRate ec rc) (∅, 0, 0) ec) as [[er eo] ro].
  cbn [fst snd] in *.
  assert (overallName base ≠ metricName base unknownEndpoint) as Hname by done.
  destruct (0 <? ro); cbn [snd]; split;
    rewrite ?lookup_insert_eq, ?(lookup_insert_ne _ _ _ _ Hname); try done;
    by eexists.
Qed.

End ErrExport.

Module RespEntries.
Import ResponseTimePerEndpoint RespSpec.

Lemma loop_entries m (rt : gmap string (list float32)) ep :
  is_Some (rt !! ep) ->
  is_Some (metrics (map_fold addEndpoint (start m) rt) !! metricName base ep).
Proof.
  apply (map_fold_weak_ind
    (fun l (rt : gmap string (list float32)) =>
       is_Some (rt !! ep) -> is_Some (metrics l !! metricName base ep))).
  - rewrite lookup_empty. by intros [? ?].
  - intros i x rt' l Hi IH Hep. cbn [addEndpoint metrics].
    assert (is_Some (<[metricName base i := f32_zero]> (metrics l)
                     !! metricName base ep)) as Hz.
    { destruct (decide (i = ep)) as [-> | Hne].
      - rewrite lookup_insert_eq. by eexists.
      - rewrite lookup_insert_ne in Hep by done.
        destruct (decide (metricName base i = metricName base ep)) as [-> | Hn].
        + rewrite lookup_insert_eq. by eexists.
        + rewrite lookup_insert_ne by done. by apply IH. }
    destruct (f32_gt0 _); [| exact Hz].
    destruct (decide (metricName base i = metricName base ep)) as [-> | Hn].
    + rewrite lookup_insert_eq. by eexists.
    + by rewrite lookup_insert_ne.
Qed.

Lemma resp_ValueMap_entries m :
  wf m ->
  is_Some ((ValueMap m).2 !! overallName base) ∧
  is_Some ((ValueMap m).2 !! metricName base unknownEndpoint).
Proof.
  intros Hwf. pose proof (loop_entries m _ unknownEndpoint Hwf) as Hentry.
  unfold ValueMap. fold (start m). cbn [snd].
  assert (overallName base ≠ metricName base unknownEndpoint) as Hname by done.
  destruct (0 <? _); split;
    rewrite ?lookup_insert_eq, ?(lookup_insert_ne _ _ _ _ Hname); try done;
    by eexists.
Qed.

End RespEntries.

(** C10 does not hold of every state: a new request-count metric is
    exported, cleared, and exported again. The second export has the
    aggregate entry and nothing else: [doSnapshot] replaced the live map by
    an empty one, which has no key ["other"]. *)
Lemma req_export_after_clear_lacks_other :
  ReqScenario.exportClearExport = [(overallName ReqPerEndpoint.base, f32_zero)].
Proof. vm_compute. reflexivity. Qed.

(** C10, state by state. The export of every metric has the aggregate entry, so
    it is never empty. The export of the error-rate and of the response-time
    metric has the entry of ["other"] as well. The first export of a new
    metric of each kind has both entries, with value 0. (The request-count
    metric has the entry of ["other"] as long as a map with that key is in
    the ledger.) *)
Theorem export_entries :
  (∀ m : ReqPerEndpoint.t,
     is_Some ((ReqPerEndpoint.ValueMap m).2 !! overallName ReqPerEndpoint.base)) ∧
  (∀ m : ErrorRatePerEndpoint.t, ErrSpec.wf m ->
     is_Some ((ErrorRatePerEndpoint.ValueMap m).2 !! overallName ErrorRatePerEndpoint.base) ∧
     is_Some ((ErrorRatePerEndpoint.ValueMap m).2
              !! metricName ErrorRatePerEndpoint.base "other")) ∧
  (∀ m : ResponseTimePerEndpoint.t, RespSpec.wf m ->
     is_Some ((ResponseTimePerEndpoint.ValueMap m).2
              !! overallName ResponseTimePerEndpoint.base) ∧
     is_Some ((ResponseTimePerEndpoint.ValueMap m).2
              !! metricName ResponseTimePerEndpoint.base "other")) ∧
  map_to_list (ReqPerEndpoint.ValueMap ReqPerEndpoint.New).2
  = [(overallName ReqPerEndpoint.base, f32_zero);
     (metricName ReqPerEndpoint.base "other", f32_zero)] ∧
  map_to_list (ErrorRatePerEndpoint.ValueMap ErrorRatePerEndpoint.New).2
  = [(overallName ErrorRatePerEndpoint.base, f32_zero);
     (metricName ErrorRatePerEndpoint.base "other", f32_zero)] ∧
  map_to_list (ResponseTimePerEndpoint.ValueMap ResponseTimePerEndpoint.New).2
  = [(overallName ResponseTimePerEndpoint.base, f32_zero);
     (metricName ResponseTimePerEndpoint.base "other", f32_zero)].
Proof.
  split; [| split; [| split; [| split; [| split]]]].
  - intros m. rewrite ReqExport.ValueMap_overall. by eexists.
  - apply ErrExport.err_ValueMap_entries.
  - apply RespEntries.resp_ValueMap_entries.
  - vm_compute. reflexivity.
  - vm_compute. reflexivity.
  - vm_compute. reflexivity.
Qed.

Lemma export_entries_witness :
  is_Some ((ErrorRatePerEndpoint.ValueMap ErrorRatePerEndpoint.New).2
           !! metricName ErrorRatePerEndpoint.base "other") ∧
  is_Some ((ResponseTimePerEndpoint.ValueMap ResponseTimePerEndpoint.New).2
           !! metricName ResponseTimePerEndpoint.base "other").
Proof.
  destruct export_entries as (_ & Herr & Hresp & _).
  split.
  - exact (proj2 (Herr ErrorRatePerEndpoint.New ErrWf.err_wf_New)).
  - exact (proj2 (Hresp ResponseTimePerEndpoint.New RespUpdate.resp_wf_New)).
Defined.

(** * Further properties of the code *)

(** ** The names of the entries *)

Lemma string_length_app (s u : string) :
  String.length (s +:+ u) = (String.length s + String.length u)%nat.
Proof.
  induction s as [| c s IH]; [done |].
  change (S (String.length (s +:+ u)) = S (String.length s + String.length u)).
  by rewrite IH.
Qed.

Lemma string_app_inj_r (s1 s2 u : string) : s1 +:+ u = s2 +:+ u -> s1 = s2.
Proof.
  revert s2. induction s1 as [| c s1 IH]; intros [| c' s2] H.
  - done.
  - apply (f_equal String.length) in H.
    rewrite !string_length_app in H. cbn in H. lia.
  - apply (f_equal String.length) in H.
    rewrite !string_length_app in H. cbn in H. lia.
  - change (String c (s1 +:+ u) = String c' (s2 +:+ u)) in H.
    injection H as -> H. f_equal. by apply IH.
Qed.

Lemma metricName_eq (b : MetricBase) (e1 e2 : string) :
  metricName b e1 = metricName b e2 -> e1 = e2.
Proof.
  unfold metricName. intros H.
  apply (inj (String.app (namePrefix b))) in H.
  by apply string_app_inj_r in H.
Qed.

Lemma metricName_ne (b : MetricBase) (e1 e2 : string) :
  e1 ≠ e2 -> metricName b e1 ≠ metricName b e2.
Proof. intros Hne Heq. by apply Hne, (metricName_eq b). Qed.

(** X1. Two endpoints never share the name of their entry, whatever the
    prefix and the unit of the metric. *)
Theorem metricName_inj (b : MetricBase) (e1 e2 : string) :
  metricName b e1 = metricName b e2 -> e1 = e2.
Proof. apply metricName_eq. Qed.

Lemma metricName_inj_witness : "log" = "log".
Proof. exact (metricName_inj ReqPerEndpoint.base "log" "log" eq_refl). Defined.

Local Ltac names_differ :=
  let H := fresh in
  intros H; cbv in H; discriminate H.

Lemma overallName_not_metricName_req e :
  overallName ReqPerEndpoint.base ≠ metricName ReqPerEndpoint.base e.
Proof. names_differ. Qed.

Lemma overallName_not_metricName_err e :
  overallName ErrorRatePerEndpoint.base ≠ metricName ErrorRatePerEndpoint.base e.
Proof. names_differ. Qed.

Lemma overallName_not_metricName_resp e :
  overallName ResponseTimePerEndpoint.base ≠ metricName ResponseTimePerEndpoint.base e.
Proof. names_differ. Qed.

(** X2. Within each of the three metrics the aggregate entry has a name no
    endpoint can have, and no name is exported by two of the three metrics:
    the payload of the reporter never mixes them up. *)
Theorem export_names_disjoint (n : string) :
  (∀ e, overallName ReqPerEndpoint.base ≠ metricName ReqPerEndpoint.base e) ∧
  (∀ e, overallName ErrorRatePerEndpoint.base ≠ metricName ErrorRatePerEndpoint.base e) ∧
  (∀ e, overallName ResponseTimePerEndpoint.base
        ≠ metricName ResponseTimePerEndpoint.base e) ∧
  ¬ (exportName ReqPerEndpoint.base n ∧ exportName ErrorRatePerEndpoint.base n) ∧
  ¬ (exportName ReqPerEndpoint.base n ∧ exportName ResponseTimePerEndpoint.base n) ∧
  ¬ (exportName ErrorRatePerEndpoint.base n ∧ exportName ResponseTimePerEndpoint.base n).
Proof.
  split; [apply overallName_not_metricName_req |].
  split; [apply overallName_not_metricName_err |].
  split; [apply overallName_not_metricName_resp |].
  repeat split; intros [[-> | [e ->]] [H | [e' H]]]; revert H; names_differ.
Qed.

(** ** The store, key by key *)

Lemma lookup_deref_set_ne h r r' k k' v :
  k ≠ k' -> deref (set h r k v) r' !! k' = deref h r' !! k'.
Proof.
  intros Hk. destruct (decide (r = r')) as [<- | Hr].
  - destruct (decide (r < length h)%nat).
    + by rewrite deref_set_eq, lookup_insert_ne.
    + unfold set. by rewrite list_insert_ge by lia.
  - by rewrite deref_set_ne.
Qed.

(** ** X3: the entry of an endpoint in the export of the request count *)

Module ReqEntryFacts.
Import ReqPerEndpoint ReqEntry.

Lemma addEntry_lookup (d : gmap string Z) acc ep :
  (map_fold addEntry acc d).1 !! metricName base ep
  = match d !! ep with
    | Some v => Some (f32_add (fget acc.1 (metricName base ep)) (f32_of_int v))
    | None => acc.1 !! metricName base ep
    end.
Proof.
  apply (map_fold_weak_ind
    (fun r (d : gmap string Z) =>
       r.1 !! metricName base ep
       = match d !! ep with
         | Some v => Some (f32_add (fget acc.1 (metricName base ep)) (f32_of_int v))
         | None => acc.1 !! metricName base ep
         end)).
  - by rewrite lookup_empty.
  - intros i x d' r Hi IH. cbn [addEntry fst].
    destruct (decide (i = ep)) as [-> | Hne].
    + rewrite !lookup_insert_eq. rewrite Hi in IH. unfold fget. by rewrite IH.
    + rewrite lookup_insert_ne by (by apply metricName_ne).
      by rewrite lookup_insert_ne.
Qed.

Lemma snapshots_lookup h snaps acc ep :
  (foldl (fun acc snapshot => map_fold addEntry acc (deref h (snap_numReq snapshot)))
         acc snaps).1 !! metricName base ep
  = entryOver h ep snaps (acc.1 !! metricName base ep).
Proof.
  revert acc. induction snaps as [| s snaps IH]; intros acc; [done |].
  cbn [foldl entryOver]. rewrite IH, addEntry_lookup. unfold entryOver, fget.
  by destruct (deref h (snap_numReq s) !! ep).
Qed.

Lemma entryOver_ext h h' ep snaps acc :
  (∀ r, deref h' r !! ep = deref h r !! ep) ->
  entryOver h' ep snaps acc = entryOver h ep snaps acc.
Proof.
  intros Hh. revert acc. induction snaps as [| s snaps IH]; intros acc; [done |].
  cbn [entryOver foldl]. rewrite Hh. apply IH.
Qed.

Lemma req_ValueMap_entry m ep :
  (ValueMap m).2 !! metricName base ep
  = entryOver (store m) ep (snapshots m ++ [ {| snap_numReq := numReq m |} ]) None.
Proof.
  unfold ValueMap.
  pose proof (snapshots_lookup (store (doSnapshot m)) (snapshots (doSnapshot m)) (∅, 0) ep)
    as Hl.
  destruct (foldl _ _ (snapshots (doSnapshot m))) as [rc n].
  destruct (alloc (store (doSnapshot m))) as [h r]. cbn [fst snd] in *.
  rewrite lookup_insert_ne by apply overallName_not_metricName_req.
  rewrite Hl, lookup_empty. unfold doSnapshot, alloc. cbn [store snapshots].
  apply entryOver_ext. intros r'. by rewrite deref_app_empty.
Qed.

End ReqEntryFacts.

(** X3. The entry of an endpoint in the export of the request count is
    the [float32] sum, in the order of the ledger and with the live map
    last, of the counts of the snapshots that have the endpoint; the export
    has no entry for an endpoint that no snapshot has. *)
Theorem req_export_entry (m : ReqPerEndpoint.t) (endpoint : string) :
  (ReqPerEndpoint.ValueMap m).2 !! metricName ReqPerEndpoint.base endpoint
  = ReqEntry.entryOver (ReqPerEndpoint.store m) endpoint
      (ReqPerEndpoint.snapshots m
       ++ [ {| ReqPerEndpoint.snap_numReq := ReqPerEndpoint.numReq m |} ])
      None.
Proof. apply ReqEntryFacts.req_ValueMap_entry. Qed.

(** ** X4: the entry of an endpoint in the export of the error rate *)

Module ErrEntryFacts.
Import ErrorRatePerEndpoint ErrEntry.

Lemma addSnapshotEntry_lookup h s (d : gmap string Z) acc ep :
  (map_fold (addSnapshotEntry h s) acc d).1 !! ep
  = match d !! ep with
    | Some _ => Some (int_add (zget acc.1 ep) (get h (snap_errorCount s) ep))
    | None => acc.1 !! ep
    end ∧
  (map_fold (addSnapshotEntry h s) acc d).2 !! ep
  = match d !! ep with
    | Some _ => Some (int_add (zget acc.2 ep) (get h (snap_numReq s) ep))
    | None => acc.2 !! ep
    end.
Proof.
  apply (map_fold_weak_ind
    (fun r (d : gmap string Z) =>
       r.1 !! ep
       = match d !! ep with
         | Some _ => Some (int_add (zget acc.1 ep) (get h (snap_errorCount s) ep))
         | None => acc.1 !! ep
         end ∧
       r.2 !! ep
       = match d !! ep with
         | Some _ => Some (int_add (zget acc.2 ep) (get h (snap_numReq s) ep))
         | None => acc.2 !! ep
         end)).
  - by rewrite lookup_empty.
  - intros i x d' r Hi [IH1 IH2]. cbn [addSnapshotEntry fst snd].
    destruct (decide (i = ep)) as [-> | Hne].
    + rewrite !lookup_insert_eq. rewrite Hi in IH1, IH2.
      unfold zget. by rewrite IH1, IH2.
    + by rewrite !lookup_insert_ne.
Qed.

Lemma sumSnapshots_lookup h snaps ep acc a :
  acc.1 !! ep = fst <$> a -> acc.2 !! ep = snd <$> a ->
  let r := foldl (fun acc snapshot =>
                    map_fold (addSnapshotEntry h snapshot) acc
                             (deref h (snap_errorCount snapshot))) acc snaps in
  r.1 !! ep = fst <$> countsOver h ep snaps a ∧
  r.2 !! ep = snd <$> countsOver h ep snaps a.
Proof.
  revert acc a. induction snaps as [| s snaps IH]; intros acc a H1 H2; [done |].
  cbn [foldl countsOver]. apply IH.
  - rewrite (proj1 (addSnapshotEntry_lookup h s _ acc ep)).
    destruct (deref h (snap_errorCount s) !! ep); [| done].
    unfold zget. rewrite H1. by destruct a.
  - rewrite (proj2 (addSnapshotEntry_lookup h s _ acc ep)).
    destruct (deref h (snap_errorCount s) !! ep); [| done].
    unfold zget. rewrite H2. by destruct a.
Qed.

Lemma addRate_lookup ec rc (d : gmap string Z) acc ep :
  (map_fold (addRate ec rc) acc d).1.1 !! metricName base ep
  = match d !! ep with
    | Some _ => Some (rate (zget ec ep) (zget rc ep))
    | None => acc.1.1 !! metricName base ep
    end.
Proof.
  apply (map_fold_weak_ind
    (fun r (d : gmap string Z) =>
       r.1.1 !! metricName base ep
       = match d !! ep with
         | Some _ => Some (rate (zget ec ep) (zget rc ep))
         | None => acc.1.1 !! metricName base ep
         end)).
  - by rewrite lookup_empty.
  - intros i x d' [[er eo] ro] Hi IH. cbn [addRate fst] in *.
    destruct (decide (i = ep)) as [-> | Hne].
    + rewrite lookup_insert_eq. unfold rate.
      destruct (f32_gt0 _); cbn [fst]; by rewrite lookup_insert_eq.
    + rewrite (lookup_insert_ne d') by done. rewrite <- IH.
      pose proof (metricName_ne base i ep Hne) as Hn.
      destruct (f32_gt0 _); cbn [fst]; by rewrite !lookup_insert_ne.
Qed.

Lemma countsOver_ext h h' ep snaps acc :
  (∀ r, deref h' r !! ep = deref h r !! ep) ->
  countsOver h' ep snaps acc = countsOver h ep snaps acc.
Proof.
  intros Hh. revert acc. induction snaps as [| s snaps IH]; intros acc; [done |].
  cbn [countsOver foldl]. unfold get. rewrite !Hh. apply IH.
Qed.

Lemma err_ValueMap_entry m ep :
  (ValueMap m).2 !! metricName base ep
  = (fun c => rate c.1 c.2)
    <$> countsOver (store (doSnapshot m)) ep (snapshots (doSnapshot m)) None.
Proof.
  unfold ValueMap.
  pose proof (sumSnapshots_lookup (store (doSnapshot m)) (snapshots (doSnapshot m))
                ep (∅, ∅) None (lookup_empty _) (lookup_empty _)) as [H1 H2].
  fold (sumSnapshots (store (doSnapshot m)) (snapshots (doSnapshot m))) in H1, H2.
  destruct (sumSnapshots _ _) as [ec rc]. cbn [fst snd] in H1, H2.
  pose proof (addRate_lookup ec rc ec (∅, 0, 0) ep) as Hr.
  destruct (map_fold (addRate ec rc) (∅, 0, 0) ec) as [[er eo] ro].
  cbn [fst snd] in *.
  assert (er !! metricName base ep
          = (fun c => rate c.1 c.2)
            <$> countsOver (store (doSnapshot m)) ep (snapshots (doSnapshot m)) None)
    as Her.
  { rewrite Hr, H1. unfold zget. rewrite H1, H2.
    by destruct (countsOver _ _ _ _) as [[e r] |]. }
  pose proof (overallName_not_metricName_err ep) as Hn.
  destruct (0 <? ro); by rewrite !lookup_insert_ne.
Qed.

End ErrEntryFacts.

(** X4. The export of the error rate has an entry for an endpoint when a
    retained snapshot has the endpoint as a key of its [errorCount]; the
    entry is then the rate of the errors to the requests that these
    snapshots hold for the endpoint, summed as they are after [doSnapshot],
    and 0 when there is no request. *)
Theorem err_export_entry (m : ErrorRatePerEndpoint.t) (endpoint : string) :
  let m' := (ErrorRatePerEndpoint.ValueMap m).1 in
  (ErrorRatePerEndpoint.ValueMap m).2 !! metricName ErrorRatePerEndpoint.base endpoint
  = (fun c => ErrEntry.rate c.1 c.2)
    <$> ErrEntry.countsOver (ErrorRatePerEndpoint.store m') endpoint
          (ErrorRatePerEndpoint.snapshots m') None.
Proof. cbn zeta. rewrite ErrWf.err_ValueMap_state. apply ErrEntryFacts.err_ValueMap_entry. Qed.

(** ** X5: the entry of an endpoint in the export of the response time *)

Module RespEntryFacts.
Import ResponseTimePerEndpoint RespSpec RespEntry.

Lemma loop_lookup m (rt : gmap string (list float32)) ep :
  metrics (map_fold addEndpoint (start m) rt) !! metricName base ep
  = (fun values => mean values (zget (numReq m) ep)) <$> (rt !! ep).
Proof.
  assert (
    metrics (map_fold addEndpoint (start m) rt) !! metricName base ep
    = ((fun values => mean values (zget (numReq m) ep)) <$> (rt !! ep)) ∧
    ∀ j, numReq (lm (map_fold addEndpoint (start m) rt)) !! j
         = match rt !! j with Some _ => Some 0 | None => numReq m !! j end) as [H _];
    [| exact H].
  apply (map_fold_weak_ind
    (fun l (rt : gmap string (list float32)) =>
       metrics l !! metricName base ep
       = ((fun values => mean values (zget (numReq m) ep)) <$> (rt !! ep)) ∧
       ∀ j, numReq (lm l) !! j
            = match rt !! j with Some _ => Some 0 | None => numReq m !! j end)).
  - split; [by rewrite !lookup_empty |]. intros j. by rewrite lookup_empty.
  - intros i x d l Hi [IH1 IH2]. cbn [addEndpoint metrics lm numReq].
    assert (zget (numReq (lm l)) i = zget (numReq m) i) as Hz.
    { unfold zget. by rewrite IH2, Hi. }
    split.
    + destruct (decide (i = ep)) as [-> | Hne].
      * rewrite (lookup_insert_eq d). cbn [fmap option_fmap option_map].
        unfold mean. rewrite Hz.
        destruct (f32_gt0 _); by rewrite lookup_insert_eq.
      * rewrite (lookup_insert_ne d) by done. rewrite <- IH1.
        pose proof (metricName_ne base i ep Hne) as Hn.
        destruct (f32_gt0 _); by rewrite !lookup_insert_ne.
    + intros j. destruct (decide (i = j)) as [<- | Hne].
      * by rewrite !lookup_insert_eq.
      * by rewrite !lookup_insert_ne.
Qed.

Lemma resp_ValueMap_entry m ep :
  (ValueMap m).2 !! metricName base ep
  = (fun values => mean values (zget (numReq m) ep)) <$> (responseTimeMap m !! ep).
Proof.
  unfold ValueMap. fold (start m). cbn [snd].
  pose proof (overallName_not_metricName_resp ep) as Hn.
  destruct (0 <? _); rewrite !lookup_insert_ne by done; apply loop_lookup.
Qed.

End RespEntryFacts.

(** X5. The export of the response time has an entry for every endpoint of
    [responseTimeMap] and for no other: the [float32] sum of the slice of
    the endpoint over its request count, and 0 when it has no request. *)
Theorem resp_export_entry (m : ResponseTimePerEndpoint.t) (endpoint : string) :
  (ResponseTimePerEndpoint.ValueMap m).2
    !! metricName ResponseTimePerEndpoint.base endpoint
  = (fun values => RespEntry.mean values (zget (ResponseTimePerEndpoint.numReq m) endpoint))
    <$> (ResponseTimePerEndpoint.responseTimeMap m !! endpoint).
Proof. apply RespEntryFacts.resp_ValueMap_entry. Qed.

(** ** X6: an update of one endpoint and the entry of another *)

Lemma lookup_deref_incr_ne h r r' k k' :
  k ≠ k' -> deref (incr h r k) r' !! k' = deref h r' !! k'.
Proof. apply lookup_deref_set_ne. Qed.

Lemma lookup_deref_set_congr h1 h2 r k v k' :
  length h1 = length h2 ->
  (∀ r', deref h1 r' !! k' = deref h2 r' !! k') ->
  ∀ r', deref (set h1 r k v) r' !! k' = deref (set h2 r k v) r' !! k'.
Proof.
  intros Hlen Hh r'. destruct (decide (k = k')) as [<- | Hk].
  - destruct (decide (r = r')) as [<- | Hr].
    + destruct (decide (r < length h1)%nat).
      * rewrite !deref_set_eq by lia. by rewrite !lookup_insert_eq.
      * unfold set. rewrite !list_insert_ge by lia. apply Hh.
    + rewrite !deref_set_ne by done. apply Hh.
  - rewrite !lookup_deref_set_ne by done. apply Hh.
Qed.

Lemma err_doSnapshot_congr m1 m2 ep :
  ErrorRatePerEndpoint.numReq m1 = ErrorRatePerEndpoint.numReq m2 ->
  ErrorRatePerEndpoint.errorCount m1 = ErrorRatePerEndpoint.errorCount m2 ->
  length (ErrorRatePerEndpoint.store m1) = length (ErrorRatePerEndpoint.store m2) ->
  (∀ r, deref (ErrorRatePerEndpoint.store m1) r !! ep
        = deref (ErrorRatePerEndpoint.store m2) r !! ep) ->
  ∀ r, deref (ErrorRatePerEndpoint.store (ErrorRatePerEndpoint.doSnapshot m1)) r !! ep
       = deref (ErrorRatePerEndpoint.store (ErrorRatePerEndpoint.doSnapshot m2)) r !! ep.
Proof.
  intros Hn He Hlen Hh. unfold ErrorRatePerEndpoint.doSnapshot, ErrorRatePerEndpoint.init.
  cbn [ErrorRatePerEndpoint.store ErrorRatePerEndpoint.numReq
       ErrorRatePerEndpoint.errorCount endpoints ErrorRatePerEndpoint.base foldl].
  rewrite Hn, He.
  apply lookup_deref_set_congr; [by rewrite !length_set |].
  by apply lookup_deref_set_congr.
Qed.

(** X6. An update for an endpoint leaves the entry of every other endpoint
    in the next export as it would have been without the update, in each
    of the three metrics. *)
Theorem update_leaves_other_entries (a b : string) (params : gmap string value) :
  endpointName params = Some a -> b ≠ a ->
  (∀ m m' e, ReqPerEndpoint.Update m params = Returns m' e ->
     (ReqPerEndpoint.ValueMap m').2 !! metricName ReqPerEndpoint.base b
     = (ReqPerEndpoint.ValueMap m).2 !! metricName ReqPerEndpoint.base b) ∧
  (∀ m m' e, ErrorRatePerEndpoint.Update m params = Returns m' e ->
     (ErrorRatePerEndpoint.ValueMap m').2 !! metricName ErrorRatePerEndpoint.base b
     = (ErrorRatePerEndpoint.ValueMap m).2 !! metricName ErrorRatePerEndpoint.base b) ∧
  (∀ now m m' e, ResponseTimePerEndpoint.Update now m params = Returns m' e ->
     (ResponseTimePerEndpoint.ValueMap m').2 !! metricName ResponseTimePerEndpoint.base b
     = (ResponseTimePerEndpoint.ValueMap m).2 !! metricName ResponseTimePerEndpoint.base b).
Proof.
  intros Hep Hne. assert (a ≠ b) as Hab by congruence. split; [| split].
  - intros m m' e. unfold ReqPerEndpoint.Update. rewrite Hep. intros [= <- <-].
    rewrite !ReqEntryFacts.req_ValueMap_entry.
    cbn [ReqPerEndpoint.store ReqPerEndpoint.snapshots ReqPerEndpoint.numReq].
    apply ReqEntryFacts.entryOver_ext. intros r. by apply lookup_deref_incr_ne.
  - intros m m' e Hup. rewrite !ErrEntryFacts.err_ValueMap_entry.
    assert (ErrorRatePerEndpoint.numReq m' = ErrorRatePerEndpoint.numReq m ∧
            ErrorRatePerEndpoint.errorCount m' = ErrorRatePerEndpoint.errorCount m ∧
            ErrorRatePerEndpoint.snapshots m' = ErrorRatePerEndpoint.snapshots m ∧
            length (ErrorRatePerEndpoint.store m') = length (ErrorRatePerEndpoint.store m) ∧
            ∀ r, deref (ErrorRatePerEndpoint.store m') r !! b
                 = deref (ErrorRatePerEndpoint.store m) r !! b)
      as (Hn & He & Hs & Hlen & Hh).
    { unfold ErrorRatePerEndpoint.Update in Hup. rewrite Hep in Hup.
      destruct (params !! "statusCode") as [[| code |] |]; try done.
      injection Hup as <- <-.
      cbn [ErrorRatePerEndpoint.store ErrorRatePerEndpoint.numReq
           ErrorRatePerEndpoint.errorCount ErrorRatePerEndpoint.snapshots].
      repeat split.
      - rewrite length_incr. by destruct (400 <=? code); rewrite ?length_incr.
      - intros r. rewrite lookup_deref_incr_ne by done.
        destruct (400 <=? code); [| done]. by apply lookup_deref_incr_ne. }
    replace (ErrorRatePerEndpoint.snapshots (ErrorRatePerEndpoint.doSnapshot m'))
      with (ErrorRatePerEndpoint.snapshots (ErrorRatePerEndpoint.doSnapshot m)).
    2:{ unfold ErrorRatePerEndpoint.doSnapshot, ErrorRatePerEndpoint.init.
        cbn [ErrorRatePerEndpoint.snapshots ErrorRatePerEndpoint.numReq
             ErrorRatePerEndpoint.errorCount]. by rewrite Hn, He, Hs. }
    f_equal. apply ErrEntryFacts.countsOver_ext.
    by apply err_doSnapshot_congr.
  - intros now m m' e. unfold ResponseTimePerEndpoint.Update.
    rewrite !RespEntryFacts.resp_ValueMap_entry.
    destruct (params !! "reqStartTime") as [[| | st] |]; try done.
    + rewrite Hep. intros [= <- <-].
      cbn [ResponseTimePerEndpoint.numReq ResponseTimePerEndpoint.responseTimeMap].
      unfold zget. by rewrite !lookup_insert_ne.
    + by intros [= <- <-].
Qed.

Lemma update_leaves_other_entries_witness :
  (ReqPerEndpoint.ValueMap
     {| ReqPerEndpoint.store :=
          incr (ReqPerEndpoint.store ReqPerEndpoint.New)
               (ReqPerEndpoint.numReq ReqPerEndpoint.New) "log";
        ReqPerEndpoint.numReq := ReqPerEndpoint.numReq ReqPerEndpoint.New;
        ReqPerEndpoint.snapshots := ReqPerEndpoint.snapshots ReqPerEndpoint.New |}).2
    !! metricName ReqPerEndpoint.base "api"
  = (ReqPerEndpoint.ValueMap ReqPerEndpoint.New).2 !! metricName ReqPerEndpoint.base "api".
Proof.
  assert (Hne : "api" ≠ "log") by done.
  exact (proj1 (update_leaves_other_entries "log" "api" (params_endpoint "log")
                  eq_refl Hne) ReqPerEndpoint.New _ None eq_refl).
Defined.

(** ** X7, X8: [Clear] on the request count *)

Lemma req_updates_Clear ps : ∀ m,
  updates ReqPerEndpoint.Update (ReqPerEndpoint.Clear m) ps
  = ReqPerEndpoint.Clear <$> updates ReqPerEndpoint.Update m ps.
Proof.
  induction ps as [| p ps IH]; intros m; [done |].
  cbn [updates]. unfold ReqPerEndpoint.Update at 1 3.
  destruct (endpointName p) as [ep |]; [| done].
  cbn [ReqPerEndpoint.Clear ReqPerEndpoint.store ReqPerEndpoint.numReq].
  apply (IH {| ReqPerEndpoint.store := incr (ReqPerEndpoint.store m) (ReqPerEndpoint.numReq m) ep;
               ReqPerEndpoint.numReq := ReqPerEndpoint.numReq m;
               ReqPerEndpoint.snapshots := ReqPerEndpoint.snapshots m |}).
Qed.

Lemma req_observed_after_export m :
  ReqSpec.observed (ReqPerEndpoint.Clear (ReqPerEndpoint.ValueMap m).1) = 0.
Proof.
  rewrite ReqWf.req_ValueMap_state.
  unfold ReqSpec.observed, ReqSpec.retained, ReqPerEndpoint.Clear,
    ReqPerEndpoint.doSnapshot, alloc.
  cbn [ReqPerEndpoint.store ReqPerEndpoint.numReq ReqPerEndpoint.snapshots
       fst snd foldr].
  rewrite !deref_app_empty.
  rewrite (deref_fresh (ReqPerEndpoint.store m) (length (ReqPerEndpoint.store m ++ [∅])))
    by (rewrite length_app; simpl; lia).
  by rewrite zsum_empty.
Qed.

(** X7. No request is lost between an export and [Clear]: when requests
    arrive after an export and the metric is then cleared, the next export
    counts exactly these requests in its aggregate entry. *)
Theorem req_clear_keeps_later_requests
    (m : ReqPerEndpoint.t) (ps : list (gmap string value)) :
  ReqSpec.wf m ->
  Forall (fun p => is_Some (endpointName p)) ps ->
  ∃ m2, updates ReqPerEndpoint.Update (ReqPerEndpoint.ValueMap m).1 ps = Some m2 ∧
    (ReqPerEndpoint.ValueMap (ReqPerEndpoint.Clear m2)).2 !! overallName ReqPerEndpoint.base
    = Some (f32_of_int (int_wrap (Z.of_nat (length ps)))).
Proof.
  intros Hwf Hps.
  pose proof (ReqWf.req_wf_Clear _ (ReqWf.req_wf_ValueMap _ Hwf)) as Hwf1.
  destruct (ReqRuns.updates_observed ps _ Hwf1 Hps) as (m' & Hrun & _ & Hobs).
  rewrite req_updates_Clear in Hrun.
  destruct (updates ReqPerEndpoint.Update (ReqPerEndpoint.ValueMap m).1 ps) as [m2 |];
    [| done].
  injection Hrun as <-. exists m2. split; [done |].
  rewrite ReqExport.ValueMap_overall, Hobs, req_observed_after_export.
  by rewrite Z.add_0_l.
Qed.

Lemma req_clear_keeps_later_requests_witness :
  ∃ m2, updates ReqPerEndpoint.Update (ReqPerEndpoint.ValueMap ReqPerEndpoint.New).1
          [params_endpoint "log"; params_endpoint "api"] = Some m2 ∧
    (ReqPerEndpoint.ValueMap (ReqPerEndpoint.Clear m2)).2 !! overallName ReqPerEndpoint.base
    = Some (f32_of_int (int_wrap (Z.of_nat 2))).
Proof.
  apply (req_clear_keeps_later_requests ReqPerEndpoint.New
           [params_endpoint "log"; params_endpoint "api"] ReqWf.req_wf_New).
  repeat (apply List.Forall_cons; [by eexists |]). apply List.Forall_nil.
Defined.

(** X8. After an export and [Clear], with no request in between, the next
    export of the request count is the aggregate entry alone, with value
    0: the entries of the endpoints are gone, not zero. *)
Theorem req_export_clear_export (m : ReqPerEndpoint.t) :
  (ReqPerEndpoint.ValueMap (ReqPerEndpoint.Clear (ReqPerEndpoint.ValueMap m).1)).2
  = {[ overallName ReqPerEndpoint.base := f32_zero ]}.
Proof. apply req_clear_resets. Qed.

(** ** X9: two exports of the response time in a row *)

(** X9. An export of the response time resets the metric by itself,
    [Clear] or not: the export that follows it with no request in between
    has the value 0 in every entry. *)
Theorem resp_second_export_zero
    (m : ResponseTimePerEndpoint.t) (name : string) (v : float32) :
  (ResponseTimePerEndpoint.ValueMap (ResponseTimePerEndpoint.ValueMap m).1).2 !! name
  = Some v ->
  v = f32_zero.
Proof. apply (resp_clear_resets m name v). Qed.

Lemma resp_second_export_zero_witness : f32_zero = f32_zero.
Proof.
  apply (resp_second_export_zero ResponseTimePerEndpoint.New
           (overallName ResponseTimePerEndpoint.base) f32_zero).
  vm_compute. reflexivity.
Defined.

(** ** X10: the snapshots of the request count *)

(** X10. A snapshot in the ledger of the request count stays in the ledger
    with the content it has, through an update and through an export. *)
Theorem req_snapshots_kept (m : ReqPerEndpoint.t) (s : ReqPerEndpoint.ReqPerEndpointSnapshot) :
  ReqSpec.wf m -> s ∈ ReqPerEndpoint.snapshots m ->
  (∀ params m' e, ReqPerEndpoint.Update m params = Returns m' e ->
     s ∈ ReqPerEndpoint.snapshots m' ∧
     deref (ReqPerEndpoint.store m') (ReqPerEndpoint.snap_numReq s)
     = deref (ReqPerEndpoint.store m) (ReqPerEndpoint.snap_numReq s)) ∧
  s ∈ ReqPerEndpoint.snapshots (ReqPerEndpoint.ValueMap m).1 ∧
  deref (ReqPerEndpoint.store (ReqPerEndpoint.ValueMap m).1) (ReqPerEndpoint.snap_numReq s)
  = deref (ReqPerEndpoint.store m) (ReqPerEndpoint.snap_numReq s).
Proof.
  intros Hwf Hin. split; [| split].
  - intros params m' e Hup. by eapply req_snapshot_kept.
  - rewrite ReporterCycle.Req_ValueMap_snapshots. apply elem_of_app. by left.
  - apply ReporterCycle.Req_ValueMap_deref.
Qed.

Lemma req_snapshots_kept_witness :
  let m := (ReqPerEndpoint.ValueMap ReqPerEndpoint.New).1 in
  let s := {| ReqPerEndpoint.snap_numReq := 0 |} in
  s ∈ ReqPerEndpoint.snapshots (ReqPerEndpoint.ValueMap m).1 ∧
  deref (ReqPerEndpoint.store (ReqPerEndpoint.ValueMap m).1) (ReqPerEndpoint.snap_numReq s)
  = deref (ReqPerEndpoint.store m) (ReqPerEndpoint.snap_numReq s).
Proof.
  intros m s.
  assert (Hwf : ReqSpec.wf m) by apply ReqWf.req_wf_ValueMap, ReqWf.req_wf_New.
  assert (Hin : s ∈ ReqPerEndpoint.snapshots m).
  { unfold m. rewrite ReporterCycle.Req_ValueMap_snapshots. apply elem_of_app. right.
    by apply list_elem_of_singleton. }
  exact (proj2 (req_snapshots_kept m s Hwf Hin)).
Defined.

(** ** X11, X12: the snapshots of the error rate are the live maps *)

Module ErrAlias.
Import ErrorRatePerEndpoint ErrSpec ErrEntry.

Lemma snapshots_live m :
  reachable m ->
  ∀ s, s ∈ snapshots m -> snap_numReq s = numReq m ∧ snap_errorCount s = errorCount m.
Proof.
  induction 1 as [| m params m' e Hr IH Hup | m Hr IH | m Hr IH]; intros s Hin.
  - by apply elem_of_nil in Hin.
  - unfold Update in Hup. destruct (endpointName params); [| done].
    destruct (params !! "statusCode") as [[| code |] |]; try done.
    injection Hup as <- <-. by apply IH.
  - rewrite ErrWf.err_ValueMap_state in *.
    destruct (ErrWf.init_fields
                {| store := store m; numReq := numReq m; errorCount := errorCount m;
                   snapshots := snapshots m ++ [ {| snap_numReq := numReq m;
                                                    snap_errorCount := errorCount m |} ] |})
      as (Hn & He & Hs & _).
    unfold doSnapshot in *. rewrite Hn, He. rewrite Hs in Hin. cbn in Hin |- *.
    apply elem_of_app in Hin as [Hin | Hin]; [by apply IH |].
    by apply list_elem_of_singleton in Hin as ->.
  - by apply elem_of_nil in Hin.
Qed.

Lemma doSnapshot_other_zero m :
  wf m ->
  deref (store (doSnapshot m)) (errorCount m) !! unknownEndpoint = Some 0 ∧
  get (store (doSnapshot m)) (errorCount m) unknownEndpoint = 0 ∧
  get (store (doSnapshot m)) (numReq m) unknownEndpoint = 0.
Proof.
  intros (Hn & He & Hne). unfold doSnapshot, init.
  cbn [store numReq errorCount snapshots endpoints base foldl].
  assert (deref (set (set (store m) (numReq m) unknownEndpoint 0)
                     (errorCount m) unknownEndpoint 0) (errorCount m) !! unknownEndpoint
          = Some 0) as H1.
  { rewrite deref_set_eq by (by rewrite length_set). apply lookup_insert_eq. }
  split; [exact H1 |]. split.
  - unfold get. by rewrite H1.
  - rewrite get_set_ne by (left; congruence). by apply get_set_eq.
Qed.

Lemma countsOver_other h snaps rn re acc :
  Forall (fun s => snap_numReq s = rn ∧ snap_errorCount s = re) snaps ->
  deref h re !! unknownEndpoint = Some 0 ->
  get h re unknownEndpoint = 0 -> get h rn unknownEndpoint = 0 ->
  acc = None ∨ acc = Some (0, 0) ->
  countsOver h unknownEndpoint snaps acc = acc ∨
  countsOver h unknownEndpoint snaps acc = Some (0, 0).
Proof.
  intros Hall Hd He Hn. revert acc.
  induction Hall as [| s snaps [Hsn Hse] _ IH]; intros acc Hacc; [by left |].
  right. cbn [countsOver foldl]. rewrite Hsn, Hse, Hd, He, Hn.
  assert (Some (int_add (default (0, 0) acc).1 0, int_add (default (0, 0) acc).2 0)
          = Some (0, 0)) as ->.
  { by destruct Hacc as [-> | ->]. }
  destruct (IH (Some (0, 0))) as [H | H]; [by right | exact H | exact H].
Qed.

Lemma ValueMap_other m :
  reachable m ->
  (ValueMap m).2 !! metricName base unknownEndpoint = Some f32_zero.
Proof.
  intros Hr. rewrite ErrEntryFacts.err_ValueMap_entry.
  pose proof (ErrWf.err_reachable_wf m Hr) as Hwf.
  destruct (doSnapshot_other_zero m Hwf) as (Hd & He & Hn).
  pose proof (snapshots_live _ (reach_ValueMap m Hr)) as Hlive.
  rewrite ErrWf.err_ValueMap_state in Hlive.
  assert (numReq (doSnapshot m) = numReq m ∧ errorCount (doSnapshot m) = errorCount m ∧
          snapshots (doSnapshot m)
          = snapshots m ++ [ {| snap_numReq := numReq m; snap_errorCount := errorCount m |} ])
    as (Hfn & Hfe & Hfs).
  { unfold doSnapshot.
    destruct (ErrWf.init_fields
                {| store := store m; numReq := numReq m; errorCount := errorCount m;
                   snapshots := snapshots m ++ [ {| snap_numReq := numReq m;
                                                    snap_errorCount := errorCount m |} ] |})
      as (H1 & H2 & H3 & _). by rewrite H1, H2, H3. }
  rewrite Hfn, Hfe in Hlive.
  destruct (countsOver_other (store (doSnapshot m)) (snapshots (doSnapshot m))
              (numReq m) (errorCount m) None) as [H | H]; try done.
  - by apply Forall_forall.
  - by left.
  - rewrite Hfs in H. unfold countsOver in H. rewrite foldl_app in H.
    cbn [foldl snap_errorCount] in H. rewrite Hd in H. done.
  - by rewrite H.
Qed.

End ErrAlias.

(** X11. In every error-rate metric a program can hold, every snapshot of
    the ledger holds the two live maps of the metric themselves: the
    snapshots are not copies. *)
Theorem err_snapshots_are_live
    (m : ErrorRatePerEndpoint.t) (s : ErrorRatePerEndpoint.ErrorRatePerEndpointSnapshot) :
  ErrSpec.reachable m -> s ∈ ErrorRatePerEndpoint.snapshots m ->
  ErrorRatePerEndpoint.snap_numReq s = ErrorRatePerEndpoint.numReq m ∧
  ErrorRatePerEndpoint.snap_errorCount s = ErrorRatePerEndpoint.errorCount m.
Proof. intros Hr. by apply ErrAlias.snapshots_live. Qed.

Lemma err_snapshots_are_live_witness :
  let m := (ErrorRatePerEndpoint.ValueMap ErrorRatePerEndpoint.New).1 in
  let s := {| ErrorRatePerEndpoint.snap_numReq := 0;
              ErrorRatePerEndpoint.snap_errorCount := 1 |} in
  ErrorRatePerEndpoint.snap_numReq s = ErrorRatePerEndpoint.numReq m ∧
  ErrorRatePerEndpoint.snap_errorCount s = ErrorRatePerEndpoint.errorCount m.
Proof.
  intros m s. apply (err_snapshots_are_live m s).
  - apply ErrSpec.reach_ValueMap, ErrSpec.reach_New.
  - unfold m. rewrite ReporterCycle.Err_ValueMap_snapshots. apply elem_of_app. right.
    by apply list_elem_of_singleton.
Defined.

(** X12. Every export of an error-rate metric a program can hold reports
    0 for ["other"], whatever requests were counted under it. *)
Theorem err_other_always_zero (m : ErrorRatePerEndpoint.t) :
  ErrSpec.reachable m ->
  (ErrorRatePerEndpoint.ValueMap m).2 !! metricName ErrorRatePerEndpoint.base "other"
  = Some f32_zero.
Proof. apply ErrAlias.ValueMap_other. Qed.

Lemma err_other_always_zero_witness :
  (ErrorRatePerEndpoint.ValueMap ErrorRatePerEndpoint.New).2
    !! metricName ErrorRatePerEndpoint.base "other"
  = Some f32_zero.
Proof. exact (err_other_always_zero ErrorRatePerEndpoint.New ErrSpec.reach_New). Defined.

(** ** X13: how an update ends *)

(** X13. An update of the request count or of the error rate never returns
    an error: it returns [nil] or it panics, the request count when
    [endpointName] is not a string, the error rate also when [statusCode]
    is absent or not an [int]. An update of the response time returns an
    error when [reqStartTime] is absent and only then, and the metric is
    then as it was. *)
Theorem update_outcomes (params : gmap string value) :
  (∀ m m' e, ReqPerEndpoint.Update m params = Returns m' e -> e = None) ∧
  (∀ m, ReqPerEndpoint.Update m params = Panics ↔ endpointName params = None) ∧
  (∀ m m' e, ErrorRatePerEndpoint.Update m params = Returns m' e -> e = None) ∧
  (∀ m, ErrorRatePerEndpoint.Update m params = Panics ↔
        endpointName params = None ∨ ∀ code, params !! "statusCode" ≠ Some (VInt code)) ∧
  (∀ now m m' e, ResponseTimePerEndpoint.Update now m params = Returns m' (Some e) ↔
        params !! "reqStartTime" = None ∧ m' = m ∧
        e = ResponseTimePerEndpoint.errMissingStart).
Proof.
  split; [| split; [| split; [| split]]].
  - intros m m' e. unfold ReqPerEndpoint.Update.
    destruct (endpointName params); [| done]. by intros [= <- <-].
  - intros m. unfold ReqPerEndpoint.Update. by destruct (endpointName params).
  - intros m m' e. unfold ErrorRatePerEndpoint.Update.
    destruct (endpointName params); [| done].
    destruct (params !! "statusCode") as [[| code |] |]; try done. by intros [= <- <-].
  - intros m. unfold ErrorRatePerEndpoint.Update.
    destruct (endpointName params) as [ep |]; [| by split; [left |]].
    destruct (params !! "statusCode") as [[| code |] |]; split; try done.
    + intros _. by right.
    + intros [? | H]; [done |]. by destruct (H code).
    + intros _. by right.
    + intros _. by right.
  - intros now m m' e. unfold ResponseTimePerEndpoint.Update.
    destruct (params !! "reqStartTime") as [[| | st] |]; split; try done.
    + by intros [? _].
    + by intros [? _].
    + destruct (endpointName params); done.
    + by intros [? _].
    + intros [= <- <-]. done.
    + by intros (_ & -> & ->).
Qed.

(** ** X14, X15: the wrapper of a request *)

Lemma request_params_lookup t0 ep code :
  let params := CollectParamsOnReqEnd (DefaultReqParams t0 ep) code in
  endpointName params = Some ep ∧
  params !! "statusCode" = Some (VInt code) ∧
  params !! "reqStartTime" = Some (VTime t0).
Proof.
  cbn zeta. unfold endpointName, CollectParamsOnReqEnd, DefaultReqParams.
  rewrite lookup_insert_eq.
  rewrite (lookup_insert_ne _ "statusCode" "endpointName") by done.
  rewrite (lookup_insert_ne _ "reqStartTime" "endpointName") by done.
  rewrite (lookup_insert_ne _ "statusCode" "reqStartTime") by done.
  by rewrite !lookup_insert_eq.
Qed.

Lemma default_params_lookup t0 ep :
  endpointName (DefaultReqParams t0 ep) = Some ep ∧
  DefaultReqParams t0 ep !! "statusCode" = None ∧
  DefaultReqParams t0 ep !! "reqStartTime" = Some (VTime t0).
Proof.
  unfold endpointName, DefaultReqParams.
  rewrite (lookup_insert_ne _ "reqStartTime" "endpointName") by done.
  rewrite (lookup_insert_ne _ "reqStartTime" "statusCode") by done.
  rewrite (lookup_insert_ne _ "endpointName" "statusCode") by done.
  by rewrite !lookup_insert_eq, lookup_empty.
Qed.

(** X14. A request that goes through the documented wrapper
    ([DefaultReqParams] at its start, [CollectParamsOnReqEnd] and
    [UpdateMetricsOnReqEnd] at its end) updates every metric of the
    reporter, of whatever kind and in whatever state: no update panics and
    none returns an error. *)
Theorem request_wrapper_updates_all
    (now t0 code : Z) (ep : string) (ms : list Reporter.AppMetric) :
  let params := CollectParamsOnReqEnd (DefaultReqParams t0 ep) code in
  ∃ ms', UpdateMetricsOnReqEnd now ms params = Some ms' ∧
    Forall2 (fun a a' => Reporter.Update now a params = Returns a' None) ms ms'.
Proof.
  intros params. destruct (request_params_lookup t0 ep code) as (Hep & Hsc & Hst).
  fold params in Hep, Hsc, Hst.
  induction ms as [| a ms (ms' & Hrun & Hall)].
  - exists []. split; [done | constructor].
  - assert (∃ a', Reporter.Update now a params = Returns a' None) as [a' Ha].
    { destruct a as [m | m | m]; unfold Reporter.Update.
      - unfold ReqPerEndpoint.Update. rewrite Hep. by eexists.
      - rewrite (ErrWf.Update_status m params ep code Hep Hsc). by eexists.
      - rewrite (RespUpdate.Update_start now m params ep t0 Hep Hst). by eexists. }
    exists (a' :: ms'). cbn [UpdateMetricsOnReqEnd]. rewrite Ha, Hrun.
    split; [done |]. by constructor.
Qed.

(** X15. When [CollectParamsOnReqEnd] is left out, so that the parameter
    bag has no status code, [UpdateMetricsOnReqEnd] panics exactly when the
    reporter has an error-rate metric. *)
Theorem request_without_status_panics
    (now t0 : Z) (ep : string) (ms : list Reporter.AppMetric) :
  UpdateMetricsOnReqEnd now ms (DefaultReqParams t0 ep) = None
  ↔ ∃ m, Reporter.Err m ∈ ms.
Proof.
  destruct (default_params_lookup t0 ep) as (Hep & Hsc & Hst).
  induction ms as [| a ms IH].
  - split; [done |]. intros [m Hin]. by apply elem_of_nil in Hin.
  - cbn [UpdateMetricsOnReqEnd]. destruct a as [m | m | m]; unfold Reporter.Update.
    + unfold ReqPerEndpoint.Update. rewrite Hep. cbn [Reporter.lift].
      rewrite fmap_None, IH. split.
      * intros [m' Hin]. exists m'. by right.
      * intros [m' Hin]. apply elem_of_cons in Hin as [? | Hin]; [done |]. by exists m'.
    + rewrite (ErrWf.Update_no_status m _ Hsc). cbn [Reporter.lift].
      split; [| done]. intros _. exists m. by left.
    + rewrite (RespUpdate.Update_start now m _ ep t0 Hep Hst). cbn [Reporter.lift].
      rewrite fmap_None, IH. split.
      * intros [m' Hin]. exists m'. by right.
      * intros [m' Hin]. apply elem_of_cons in Hin as [? | Hin]; [done |]. by exists m'.
Qed.

(** ** X16, X17: the payload of a cycle *)

Module Payload.
Import Reporter.

Lemma copy_entries (values data : gmap string float32) :
  map_fold (fun name value data => <[name := value]> data) data values = values ∪ data.
Proof.
  apply (map_fold_weak_ind
    (fun r (values : gmap string float32) => r = values ∪ data)).
  - by rewrite (left_id_L ∅ (∪)).
  - intros i x m r Hi ->. by rewrite insert_union_l.
Qed.

Lemma exportAll_data ms :
  (exportAll ms).2 = foldl (fun data a => (ValueMap a).2 ∪ data) ∅ ms.
Proof.
  unfold exportAll.
  assert (∀ acc : list AppMetric * gmap string float32,
    (foldl (fun acc metric =>
              let '(metric, values) := ValueMap metric in
              (acc.1 ++ [metric],
               map_fold (fun name value data => <[name := value]> data) acc.2 values))
           acc ms).2 = foldl (fun data a => (ValueMap a).2 ∪ data) acc.2 ms) as H.
  { induction ms as [| a ms IH]; intros acc; [done |].
    cbn [foldl]. rewrite IH. destruct (ValueMap a) as [a' values]. cbn [fst snd].
    by rewrite copy_entries. }
  apply H.
Qed.

Lemma req_export_names m n :
  is_Some ((ReqPerEndpoint.ValueMap m).2 !! n) -> exportName ReqPerEndpoint.base n.
Proof.
  unfold ReqPerEndpoint.ValueMap.
  set (h := ReqPerEndpoint.store (ReqPerEndpoint.doSnapshot m)).
  assert (∀ snaps (acc : gmap string float32 * Z),
    (∀ n, is_Some (acc.1 !! n) -> ∃ e, n = metricName ReqPerEndpoint.base e) ->
    ∀ n, is_Some ((foldl (fun acc snapshot =>
                     map_fold ReqPerEndpoint.addEntry acc
                       (deref h (ReqPerEndpoint.snap_numReq snapshot))) acc snaps).1 !! n) ->
         ∃ e, n = metricName ReqPerEndpoint.base e) as Hfold.
  { induction snaps as [| s snaps IH]; intros acc Hacc; [exact Hacc |].
    cbn [foldl]. apply IH.
    apply (map_fold_weak_ind
      (fun r (d : gmap string Z) =>
         ∀ n, is_Some (r.1 !! n) -> ∃ e, n = metricName ReqPerEndpoint.base e));
      [exact Hacc |].
    intros i x d r Hi IHr n'. cbn [ReqPerEndpoint.addEntry fst].
    destruct (decide (metricName ReqPerEndpoint.base i = n')) as [<- | Hne].
    - intros _. by exists i.
    - rewrite lookup_insert_ne by done. apply IHr. }
  specialize (Hfold (ReqPerEndpoint.snapshots (ReqPerEndpoint.doSnapshot m)) (∅, 0)).
  destruct (foldl _ _ (ReqPerEndpoint.snapshots (ReqPerEndpoint.doSnapshot m))) as [rc k].
  destruct (alloc h) as [h' r]. cbn [fst snd] in *.
  destruct (decide (overallName ReqPerEndpoint.base = n)) as [<- | Hne].
  - intros _. by left.
  - rewrite lookup_insert_ne by done. intros Hn. right. apply Hfold; [| done].
    intros n'. rewrite lookup_empty. by intros [? ?].
Qed.

Lemma err_export_names m n :
  is_Some ((ErrorRatePerEndpoint.ValueMap m).2 !! n) ->
  exportName ErrorRatePerEndpoint.base n.
Proof.
  unfold ErrorRatePerEndpoint.ValueMap.
  destruct (ErrorRatePerEndpoint.sumSnapshots _ _) as [ec rc].
  assert (∀ n, is_Some ((map_fold (ErrorRatePerEndpoint.addRate ec rc) (∅, 0, 0) ec).1.1 !! n)
               -> ∃ e, n = metricName ErrorRatePerEndpoint.base e) as Hfold.
  { apply (map_fold_weak_ind
      (fun r (d : gmap string Z) =>
         ∀ n, is_Some (r.1.1 !! n) -> ∃ e, n = metricName ErrorRatePerEndpoint.base e)).
    - intros n'. cbn [fst]. rewrite lookup_empty. by intros [? ?].
    - intros i x d [[er eo] ro] Hi IHr n'. cbn [ErrorRatePerEndpoint.addRate fst] in *.
      destruct (decide (metricName ErrorRatePerEndpoint.base i = n')) as [<- | Hne].
      + intros _. by exists i.
      + destruct (f32_gt0 _); cbn [fst]; rewrite !lookup_insert_ne by done; apply IHr. }
  destruct (map_fold _ _ ec) as [[er eo] ro]. cbn [fst snd] in *.
  destruct (decide (overallName ErrorRatePerEndpoint.base = n)) as [<- | Hne].
  - intros _. by left.
  - intros Hn. right. apply Hfold.
    destruct (0 <? ro); by rewrite !lookup_insert_ne in Hn.
Qed.

Lemma resp_export_names m n :
  is_Some ((ResponseTimePerEndpoint.ValueMap m).2 !! n) ->
  exportName ResponseTimePerEndpoint.base n.
Proof.
  unfold ResponseTimePerEndpoint.ValueMap. fold (RespSpec.start m). cbn [snd].
  assert (∀ n, is_Some (ResponseTimePerEndpoint.metrics
                          (map_fold ResponseTimePerEndpoint.addEndpoint (RespSpec.start m)
                             (ResponseTimePerEndpoint.responseTimeMap m)) !! n)
               -> ∃ e, n = metricName ResponseTimePerEndpoint.base e) as Hfold.
  { apply (map_fold_weak_ind
      (fun l (d : gmap string (list float32)) =>
         ∀ n, is_Some (ResponseTimePerEndpoint.metrics l !! n) ->
              ∃ e, n = metricName ResponseTimePerEndpoint.base e)).
    - intros n'. unfold RespSpec.start. cbn [ResponseTimePerEndpoint.metrics].
      rewrite lookup_empty. by intros [? ?].
    - intros i x d l Hi IHr n'.
      cbn [ResponseTimePerEndpoint.addEndpoint ResponseTimePerEndpoint.metrics].
      destruct (decide (metricName ResponseTimePerEndpoint.base i = n')) as [<- | Hne].
      + intros _. by exists i.
      + destruct (f32_gt0 _); rewrite !lookup_insert_ne by done; apply IHr. }
  destruct (decide (overallName ResponseTimePerEndpoint.base = n)) as [<- | Hne].
  - intros _. by left.
  - intros Hn. right. apply Hfold.
    destruct (0 <? _); by rewrite !lookup_insert_ne in Hn.
Qed.

Lemma names_req_err n :
  ¬ (exportName ReqPerEndpoint.base n ∧ exportName ErrorRatePerEndpoint.base n).
Proof. intros [[-> | [e ->]] [H | [e' H]]]; revert H; names_differ. Qed.

Lemma names_req_resp n :
  ¬ (exportName ReqPerEndpoint.base n ∧ exportName ResponseTimePerEndpoint.base n).
Proof. intros [[-> | [e ->]] [H | [e' H]]]; revert H; names_differ. Qed.

Lemma names_err_resp n :
  ¬ (exportName ErrorRatePerEndpoint.base n ∧ exportName ResponseTimePerEndpoint.base n).
Proof. intros [[-> | [e ->]] [H | [e' H]]]; revert H; names_differ. Qed.

End Payload.

(** X16. The payload of a cycle is the union of the exports of the
    metrics, taken in the order of registration: where two metrics export
    the same name, the one registered later wins. *)
Theorem payload_is_union (reporter : Reporter.t) (resp : http_result) :
  (Reporter.sendMetrics reporter resp).1.2
  = foldl (fun data a => (Reporter.ValueMap a).2 ∪ data) ∅ (Reporter.Metrics reporter).
Proof.
  unfold Reporter.sendMetrics. rewrite <- Payload.exportAll_data.
  by destruct (Reporter.exportAll (Reporter.Metrics reporter)).
Qed.

(** X17. For a reporter with the three default metrics, in whatever state
    they are, the payload of a cycle holds each entry of each of the three
    exports with its value, and nothing else. *)
Theorem default_payload_entries
    (reporter : Reporter.t) (resp : http_result)
    (a : ReqPerEndpoint.t) (b : ErrorRatePerEndpoint.t) (c : ResponseTimePerEndpoint.t)
    (n : string) (v : float32) :
  Reporter.Metrics reporter = [Reporter.Req a; Reporter.Err b; Reporter.Resp c] ->
  (Reporter.sendMetrics reporter resp).1.2 !! n = Some v
  ↔ (ReqPerEndpoint.ValueMap a).2 !! n = Some v ∨
    (ErrorRatePerEndpoint.ValueMap b).2 !! n = Some v ∨
    (ResponseTimePerEndpoint.ValueMap c).2 !! n = Some v.
Proof.
  intros Hms.
  assert ((Reporter.sendMetrics reporter resp).1.2
          = (ResponseTimePerEndpoint.ValueMap c).2
            ∪ ((ErrorRatePerEndpoint.ValueMap b).2
               ∪ ((ReqPerEndpoint.ValueMap a).2 ∪ ∅))) as ->.
  { unfold Reporter.sendMetrics. rewrite Hms.
    pose proof (Payload.exportAll_data [Reporter.Req a; Reporter.Err b; Reporter.Resp c])
      as Hd.
    destruct (Reporter.exportAll _) as [ms data]. cbn [fst snd] in *. rewrite Hd.
    cbn [foldl Reporter.ValueMap].
    destruct (ReqPerEndpoint.ValueMap a), (ErrorRatePerEndpoint.ValueMap b),
      (ResponseTimePerEndpoint.ValueMap c). done. }
  rewrite (right_id_L ∅ (∪)).
  pose proof (Payload.req_export_names a n) as Ha.
  pose proof (Payload.err_export_names b n) as Hb.
  pose proof (Payload.resp_export_names c n) as Hc.
  pose proof (Payload.names_req_err n) as Hab.
  pose proof (Payload.names_req_resp n) as Hac.
  pose proof (Payload.names_err_resp n) as Hbc.
  rewrite !lookup_union_Some_raw. split.
  - intros [? | [_ [? | [_ ?]]]]; auto.
  - intros [H | [H | H]].
    + right. split.
      { apply eq_None_not_Some. intros Hs. apply Hac. split; [apply Ha | by apply Hc].
        by rewrite H. }
      right. split; [| done].
      apply eq_None_not_Some. intros Hs. apply Hab. split; [apply Ha | by apply Hb].
      by rewrite H.
    + right. split.
      { apply eq_None_not_Some. intros Hs. apply Hbc. split; [apply Hb | by apply Hc].
        by rewrite H. }
      by left.
    + by left.
Qed.

Lemma default_payload_entries_witness :
  let reporter := Reporter.InitDefaultReporter "app" "key" false in
  (Reporter.sendMetrics reporter (Response 200)).1.2
    !! overallName ReqPerEndpoint.base = Some f32_zero
  ↔ (ReqPerEndpoint.ValueMap ReqPerEndpoint.New).2
      !! overallName ReqPerEndpoint.base = Some f32_zero ∨
    (ErrorRatePerEndpoint.ValueMap ErrorRatePerEndpoint.New).2
      !! overallName ReqPerEndpoint.base = Some f32_zero ∨
    (ResponseTimePerEndpoint.ValueMap ResponseTimePerEndpoint.New).2
      !! overallName ReqPerEndpoint.base = Some f32_zero.
Proof.
  intros reporter.
  exact (default_payload_entries reporter (Response 200) ReqPerEndpoint.New
           ErrorRatePerEndpoint.New ResponseTimePerEndpoint.New
           (overallName ReqPerEndpoint.base) f32_zero eq_refl).
Defined.

(** ** X18, X19: the earlier revision reads and resets *)

Module V1Facts.

Lemma v1_overallName_not_metricName_req e :
  overallName V1.ReqPerEndpoint.base ≠ metricName V1.ReqPerEndpoint.base e.
Proof. names_differ. Qed.

Lemma v1_overallName_not_metricName_err e :
  overallName V1.ErrorRatePerEndpoint.base ≠ metricName V1.ErrorRatePerEndpoint.base e.
Proof. names_differ. Qed.

Lemma req_entries (d : gmap string Z) ep :
  (map_fold V1.ReqPerEndpoint.addEntry (∅, 0) d).1 !! metricName V1.ReqPerEndpoint.base ep
  = f32_of_int <$> (d !! ep).
Proof.
  apply (map_fold_weak_ind
    (fun r (d : gmap string Z) =>
       r.1 !! metricName V1.ReqPerEndpoint.base ep = f32_of_int <$> (d !! ep))).
  - by rewrite !lookup_empty.
  - intros i x d' r Hi IH. cbn [V1.ReqPerEndpoint.addEntry fst].
    destruct (decide (i = ep)) as [-> | Hne].
    + by rewrite !lookup_insert_eq.
    + rewrite lookup_insert_ne by (by apply metricName_ne).
      by rewrite lookup_insert_ne.
Qed.

Lemma req_total (d : gmap string Z) :
  (map_fold V1.ReqPerEndpoint.addEntry (∅, 0) d).2 = int_wrap (zsum d).
Proof.
  unfold zsum. rewrite !map_fold_foldr.
  assert (∀ l (rc : gmap string float32) n,
    (foldr (uncurry V1.ReqPerEndpoint.addEntry) (rc, n) l).2
    = foldr (fun kv acc => int_add acc kv.2) n l) as Hsnd.
  { induction l as [| [k v] l IH]; intros rc n; simpl; [done | by rewrite IH]. }
  rewrite Hsnd, <- ReqExport.int_fold_wrapped by done.
  rewrite ReqExport.int_fold_total. f_equal. rewrite Z.add_0_l.
  induction (map_to_list d) as [| [k v] l IH]; simpl; [done | by rewrite IH].
Qed.

Lemma err_loop m (ec : gmap string Z) ep :
  let l := map_fold V1.ErrorRatePerEndpoint.addEndpoint (V1.ErrorRatePerEndpoint.start m) ec in
  V1.ErrorRatePerEndpoint.errorCount (V1.ErrorRatePerEndpoint.lm l) !! ep
  = match ec !! ep with
    | Some _ => Some 0
    | None => V1.ErrorRatePerEndpoint.errorCount m !! ep
    end ∧
  V1.ErrorRatePerEndpoint.reqCount (V1.ErrorRatePerEndpoint.lm l) !! ep
  = match ec !! ep with
    | Some _ => Some 0
    | None => V1.ErrorRatePerEndpoint.reqCount m !! ep
    end.
Proof.
  cbn zeta. apply (map_fold_weak_ind
    (fun l (ec : gmap string Z) =>
       V1.ErrorRatePerEndpoint.errorCount (V1.ErrorRatePerEndpoint.lm l) !! ep
       = match ec !! ep with
         | Some _ => Some 0
         | None => V1.ErrorRatePerEndpoint.errorCount m !! ep
         end ∧
       V1.ErrorRatePerEndpoint.reqCount (V1.ErrorRatePerEndpoint.lm l) !! ep
       = match ec !! ep with
         | Some _ => Some 0
         | None => V1.ErrorRatePerEndpoint.reqCount m !! ep
         end)).
  - by rewrite lookup_empty.
  - intros i x d l Hi [IH1 IH2].
    cbn [V1.ErrorRatePerEndpoint.addEndpoint V1.ErrorRatePerEndpoint.lm
         V1.ErrorRatePerEndpoint.errorCount V1.ErrorRatePerEndpoint.reqCount].
    destruct (decide (i = ep)) as [-> | Hne].
    + by rewrite !lookup_insert_eq.
    + by rewrite !lookup_insert_ne.
Qed.

Lemma err_zero_export m :
  (∀ i, is_Some (V1.ErrorRatePerEndpoint.errorCount m !! i) ->
        zget (V1.ErrorRatePerEndpoint.reqCount m) i = 0) ->
  ∀ n v, (V1.ErrorRatePerEndpoint.ValueMap m).2 !! n = Some v -> v = f32_zero.
Proof.
  intros Hzero.
  assert (
    (∀ n v, V1.ErrorRatePerEndpoint.metrics
              (map_fold V1.ErrorRatePerEndpoint.addEndpoint (V1.ErrorRatePerEndpoint.start m)
                 (V1.ErrorRatePerEndpoint.errorCount m)) !! n = Some v -> v = f32_zero) ∧
    V1.ErrorRatePerEndpoint.reqAllEndpoints
      (map_fold V1.ErrorRatePerEndpoint.addEndpoint (V1.ErrorRatePerEndpoint.start m)
         (V1.ErrorRatePerEndpoint.errorCount m)) = 0) as [Hm Hn].
  { revert Hzero.
    apply (map_fold_weak_ind
      (fun l (d : gmap string Z) =>
         (∀ i, is_Some (d !! i) -> zget (V1.ErrorRatePerEndpoint.reqCount m) i = 0) ->
         ((∀ n v, V1.ErrorRatePerEndpoint.metrics l !! n = Some v -> v = f32_zero) ∧
          V1.ErrorRatePerEndpoint.reqAllEndpoints l = 0) ∧
         ∀ i, zget (V1.ErrorRatePerEndpoint.reqCount (V1.ErrorRatePerEndpoint.lm l)) i = 0 ∨
              zget (V1.ErrorRatePerEndpoint.reqCount (V1.ErrorRatePerEndpoint.lm l)) i
              = zget (V1.ErrorRatePerEndpoint.reqCount m) i)).
    - intros _. split; [split; [| done] |].
      + intros n v. unfold V1.ErrorRatePerEndpoint.start.
        cbn [V1.ErrorRatePerEndpoint.metrics]. by rewrite lookup_empty.
      + intros i. by right.
    - intros i x d l Hi IH Hz.
      destruct IH as [[IHm IHn] IHq].
      { intros j Hj. apply Hz. rewrite lookup_insert_ne; [done |].
        intros <-. rewrite Hi in Hj. by destruct Hj. }
      assert (zget (V1.ErrorRatePerEndpoint.reqCount (V1.ErrorRatePerEndpoint.lm l)) i = 0)
        as Hi0.
      { destruct (IHq i) as [? | ->]; [done |]. apply Hz.
        rewrite lookup_insert_eq. by eexists. }
      cbn [V1.ErrorRatePerEndpoint.addEndpoint V1.ErrorRatePerEndpoint.metrics
           V1.ErrorRatePerEndpoint.reqAllEndpoints V1.ErrorRatePerEndpoint.lm
           V1.ErrorRatePerEndpoint.reqCount].
      rewrite Hi0. change (f32_gt0 (f32_of_int 0)) with false. cbn iota.
      split; [split |].
      + intros n v.
        destruct (decide (metricName V1.ErrorRatePerEndpoint.base i = n)) as [<- | Hne].
        * rewrite lookup_insert_eq. by intros [= <-].
        * rewrite lookup_insert_ne by done. apply IHm.
      + by rewrite IHn.
      + intros j. destruct (decide (i = j)) as [<- | Hne].
        * left. unfold zget. by rewrite lookup_insert_eq.
        * unfold zget. rewrite lookup_insert_ne by done. apply IHq. }
  intros n v. unfold V1.ErrorRatePerEndpoint.ValueMap. cbn [snd].
  rewrite Hn. change (0 <? 0) with false. cbn iota.
  destruct (decide (overallName V1.ErrorRatePerEndpoint.base = n)) as [<- | Hne].
  - rewrite lookup_insert_eq. by intros [= <-].
  - rewrite lookup_insert_ne by done. apply Hm.
Qed.

End V1Facts.

(** X18. In the earlier revision an export of the request count reports
    the live counts (the entry of an endpoint is its count, the aggregate
    entry their sum in [int]) and forgets them: the export that follows it
    with no request in between is the aggregate entry alone, with value 0. *)
Theorem v1_req_export_reads_and_resets (m : V1.ReqPerEndpoint.t) (endpoint : string) :
  (V1.ReqPerEndpoint.ValueMap m).2 !! metricName V1.ReqPerEndpoint.base endpoint
  = f32_of_int <$> (V1.ReqPerEndpoint.reqCount m !! endpoint) ∧
  (V1.ReqPerEndpoint.ValueMap m).2 !! overallName V1.ReqPerEndpoint.base
  = Some (f32_of_int (int_wrap (zsum (V1.ReqPerEndpoint.reqCount m)))) ∧
  (V1.ReqPerEndpoint.ValueMap (V1.ReqPerEndpoint.ValueMap m).1).2
  = {[ overallName V1.ReqPerEndpoint.base := f32_zero ]}.
Proof.
  unfold V1.ReqPerEndpoint.ValueMap.
  pose proof (V1Facts.req_entries (V1.ReqPerEndpoint.reqCount m) endpoint) as He.
  pose proof (V1Facts.req_total (V1.ReqPerEndpoint.reqCount m)) as Ht.
  destruct (map_fold V1.ReqPerEndpoint.addEntry (∅, 0) (V1.ReqPerEndpoint.reqCount m))
    as [metricMap n]. cbn [fst snd] in *.
  split; [| split].
  - rewrite lookup_insert_ne by apply V1Facts.v1_overallName_not_metricName_req. exact He.
  - by rewrite lookup_insert_eq, Ht.
  - cbn [V1.ReqPerEndpoint.reqCount]. by rewrite map_fold_empty.
Qed.

(** X19. In the earlier revision an export of the error rate resets the two
    counts of the endpoints that have a key in [errorCount], and of these
    only: an endpoint with no error so far keeps its request count, which
    the export did not report (clauses 1 and 2). The export that follows
    with no request in between has the value 0 in every entry. *)
Theorem v1_err_export_resets (m : V1.ErrorRatePerEndpoint.t) :
  let m' := (V1.ErrorRatePerEndpoint.ValueMap m).1 in
  (∀ ep, is_Some (V1.ErrorRatePerEndpoint.errorCount m !! ep) ->
     V1.ErrorRatePerEndpoint.errorCount m' !! ep = Some 0 ∧
     V1.ErrorRatePerEndpoint.reqCount m' !! ep = Some 0) ∧
  (∀ ep, V1.ErrorRatePerEndpoint.errorCount m !! ep = None ->
     V1.ErrorRatePerEndpoint.errorCount m' !! ep = None ∧
     V1.ErrorRatePerEndpoint.reqCount m' !! ep = V1.ErrorRatePerEndpoint.reqCount m !! ep) ∧
  (∀ n v, (V1.ErrorRatePerEndpoint.ValueMap m').2 !! n = Some v -> v = f32_zero).
Proof.
  cbn zeta.
  assert (∀ ep,
    V1.ErrorRatePerEndpoint.errorCount (V1.ErrorRatePerEndpoint.ValueMap m).1 !! ep
    = match V1.ErrorRatePerEndpoint.errorCount m !! ep with
      | Some _ => Some 0
      | None => V1.ErrorRatePerEndpoint.errorCount m !! ep
      end ∧
    V1.ErrorRatePerEndpoint.reqCount (V1.ErrorRatePerEndpoint.ValueMap m).1 !! ep
    = match V1.ErrorRatePerEndpoint.errorCount m !! ep with
      | Some _ => Some 0
      | None => V1.ErrorRatePerEndpoint.reqCount m !! ep
      end) as Hst.
  { intros ep. apply (V1Facts.err_loop m (V1.ErrorRatePerEndpoint.errorCount m) ep). }
  split; [| split].
  - intros ep [x Hx]. destruct (Hst ep) as [H1 H2]. by rewrite H1, H2, Hx.
  - intros ep Hx. destruct (Hst ep) as [H1 H2]. by rewrite H1, H2, Hx.
  - apply V1Facts.err_zero_export. intros i His.
    destruct (Hst i) as [H1 H2]. unfold zget. rewrite H2.
    rewrite H1 in His.
    destruct (V1.ErrorRatePerEndpoint.errorCount m !! i); [done |]. by destruct His.
Qed.

Lemma v1_err_export_resets_witness :
  let m' := (V1.ErrorRatePerEndpoint.ValueMap V1.ErrorRatePerEndpoint.New).1 in
  V1.ErrorRatePerEndpoint.errorCount m' !! "other" = Some 0 ∧
  V1.ErrorRatePerEndpoint.reqCount m' !! "other" = Some 0.
Proof.
  assert (H : is_Some (V1.ErrorRatePerEndpoint.errorCount V1.ErrorRatePerEndpoint.New
                       !! "other")) by (by eexists).
  exact (proj1 (v1_err_export_resets V1.ErrorRatePerEndpoint.New) "other" H).
Defined.

Lemma update_outcomes_witness :
  ResponseTimePerEndpoint.Update 0 ResponseTimePerEndpoint.New (params_endpoint "log")
  = Returns ResponseTimePerEndpoint.New (Some ResponseTimePerEndpoint.errMissingStart).
Proof.
  destruct (update_outcomes (params_endpoint "log")) as (_ & _ & _ & _ & H).
  apply H. split; [reflexivity | split; reflexivity].
Defined.
